(** * ELAN 04F3:0C4C match-on-chip fingerprint reader: a model of [elanfp.py]

    The driver talks to the sensor through two transport primitives of the
    USB handle, [bulkWrite] and [bulkRead].  The model keeps a [world] that
    holds what the sensor is going to answer (a script of replies, one per
    [bulkRead]) and a chronological trace of everything the driver did:
    writes, reads, warnings, printed lines.  Every function of the driver is
    a computation over that world which either returns a value or raises one
    of Python's exceptions.  The [while True] loops take a fuel argument. *)

From Stdlib Require Import ZArith Lia HexadecimalString.
From Stdlib Require Import Init.Byte Floats.SpecFloat.
From stdpp Require Import gmap strings list pretty.

Open Scope Z_scope.

(** ** Python values *)

(** A [bytes] object; indexing it yields an [int]. *)
Abbreviation bytes := (list byte).

Definition int_of_byte (b : byte) : Z := Z.of_N (Byte.to_N b).

Definition len {A} (l : list A) : Z := Z.of_nat (length l).

(** The exceptions that the driver and the primitives it calls can raise. *)
Inductive exn :=
| IndexError
| KeyError (key : string)
| StructError
| OverflowError
| ValueError
| ZeroDivisionError
| OSError (msg : string)
| IOError (msg : string)
| USBError.

(** The result of running a piece of the driver: a value, an exception that
    is propagating, or [OutOfFuel] when a loop was cut by the fuel bound
    (an artefact of the model, never an exception of the program). *)
Inductive outcome (A : Type) :=
| Ok (a : A)
| Raise (e : exn)
| OutOfFuel.
Arguments Ok {A} a.
Arguments Raise {A} e.
Arguments OutOfFuel {A}.

(** [hex(n)] for a Python [int]. *)
Definition hex (n : Z) : string :=
  match n with
  | Z0 => "0x0"
  | Zpos p => "0x" +:+ NilZero.string_of_uint (Pos.to_hex_uint p)
  | Zneg p => "-0x" +:+ NilZero.string_of_uint (Pos.to_hex_uint p)
  end.

(** [str(n)] for a Python [int], as an f-string renders it. *)
Definition str_int (n : Z) : string := pretty n.

(** [str(x)] for an [Optional[str]]. *)
Definition str_opt (o : option string) : string :=
  match o with
  | Some s => s
  | None => "None"
  end.

(** Truth value of an [Optional[str]]: [None] and the empty string are
    false. *)
Definition truthy (o : option string) : bool :=
  match o with
  | Some s => negb (String.eqb s "")
  | None => false
  end.

(** [b[i]]: negative indices count from the end. *)
Definition getitem (b : bytes) (i : Z) : outcome Z :=
  if (0 <=? i) && (i <? len b) then
    match b !! Z.to_nat i with
    | Some x => Ok (int_of_byte x)
    | None => Raise IndexError
    end
  else if (i <? 0) && (- len b <=? i) then
    match b !! Z.to_nat (len b + i) with
    | Some x => Ok (int_of_byte x)
    | None => Raise IndexError
    end
  else Raise IndexError.

(** [b.ljust(width, fill)]: pads on the right, never shortens. *)
Definition ljust (b : bytes) (width : Z) (fill : byte) : bytes :=
  b ++ replicate (Z.to_nat (width - len b)) fill.

(** One field of format ["B"] of [struct.pack]: an unsigned char. *)
Definition pack_B (v : Z) : outcome byte :=
  if v <? 0 then Raise StructError
  else match Byte.of_N (Z.to_N v) with
       | Some b => Ok b
       | None => Raise StructError
       end.

(** [struct.pack("B" * n, v1, ..., vn)]. *)
Fixpoint struct_pack (vs : list Z) : outcome bytes :=
  match vs with
  | [] => Ok []
  | v :: vs' =>
      match pack_B v with
      | Ok b =>
          match struct_pack vs' with
          | Ok bs => Ok (b :: bs)
          | Raise e => Raise e
          | OutOfFuel => OutOfFuel
          end
      | Raise e => Raise e
      | OutOfFuel => OutOfFuel
      end
  end.

(** [n.to_bytes(1, "little")]. *)
Definition to_bytes1 (n : Z) : outcome bytes :=
  if n <? 0 then Raise OverflowError
  else match Byte.of_N (Z.to_N n) with
       | Some b => Ok [b]
       | None => Raise OverflowError
       end.

(** [b.hex(' ')]. *)
Definition hex2 (b : byte) : string :=
  let n := Byte.to_N b in
  NilZero.string_of_uint (N.to_hex_uint (n / 16)) +:+
  NilZero.string_of_uint (N.to_hex_uint (n mod 16)).

Fixpoint bytes_hex (b : bytes) : string :=
  match b with
  | [] => ""
  | [x] => hex2 x
  | x :: rest => hex2 x +:+ " " +:+ bytes_hex rest
  end.

(** ** The static tables *)

Record Command := mkCommand {
  c_command : bytes;
  out_len : Z;
  in_len : Z;
  ep_out : Z;
  ep_in : Z
}.

Definition COMMANDS : gmap string Command :=
  list_to_map [
    ("fw_ver",        mkCommand [x40; x19] 2 2 1 3);
    ("sensor_size",   mkCommand [x00; x0c] 2 4 1 3);
    ("verify",        mkCommand [x40; xff; x03] 3 2 1 4);
    ("finger_info",   mkCommand [x40; xff; x12] 4 64 1 3);
    ("enrolled_num",  mkCommand [x40; xff; x04] 3 2 1 3);
    ("enrolled_num1", mkCommand [x40; xff; x00] 3 2 1 3);
    ("abort",         mkCommand [x40; xff; x02] 3 2 1 3);
    ("commit",        mkCommand [x40; xff; x11] 72 2 1 3);
    ("enroll",        mkCommand [x40; xff; x01] 7 2 1 4);
    ("after_enroll",  mkCommand [x40; xff; x10] 3 3 1 3);
    ("delete",        mkCommand [x40; xff; x13] 72 2 1 3)
  ].

Definition ERRORS : gmap Z string :=
  list_to_map [
    (0x41, "Move slightly downwards");
    (0x42, "Move slightly to the right");
    (0x43, "Move slightly upwards");
    (0x44, "Move slightly to the left");
    (0xfb, "Sensor is dirty or wet");
    (0xfd, "Finger not enrolled");
    (0xfe, "Finger area not enough");
    (0xdd, "Maximum number of enrolled fingers reached")
  ].

(** ** The status interpreter *)

Definition get_error (byte : Z) : option string :=
  if Z.land byte 0xF0 =? 0 then None
  else match ERRORS !! byte with
       | None => Some ("Unknown error " +:+ hex byte)
       | Some description => Some description
       end.

(** ** The world: the sensor's script and the driver's trace *)

Inductive event :=
| BulkWrite (ep : Z) (data : bytes) (timeout : Z)
| BulkRead (ep : Z) (length : Z) (timeout : Z) (data : bytes)
| ResetDevice
| Warn (msg : string)
| Print (msg : string)
| Hexdump (data : bytes)
| SavePng (path : string) (width height : Z) (pixels : list Z).

(** [attached]: whether a device with the vendor and product id is plugged
    in; [pending]: what the following [bulkRead] calls return, in order
    (when none is left the read fails with a USB error, as a timeout does);
    [trace]: what the driver has done so far, oldest first. *)
Record world := mkWorld {
  attached : bool;
  pending : list bytes;
  trace : list event
}.

Definition M (A : Type) : Type := world -> outcome A * world.

Definition ret {A} (a : A) : M A := fun w => (Ok a, w).

Definition raise {A} (e : exn) : M A := fun w => (Raise e, w).

Definition out_of_fuel {A} : M A := fun w => (OutOfFuel, w).

Definition bind {A B} (m : M A) (k : A -> M B) : M B :=
  fun w =>
    match m w with
    | (Ok a, w') => k a w'
    | (Raise e, w') => (Raise e, w')
    | (OutOfFuel, w') => (OutOfFuel, w')
    end.

Definition lift {A} (o : outcome A) : M A := fun w => (o, w).

Declare Scope drv_scope.
Delimit Scope drv_scope with drv.
Notation "'let*' x ':=' m 'in' k" := (bind m (fun x => k))
  (at level 10, x name, m at level 100, k at level 200) : drv_scope.
Notation "m ';;' k" := (bind m (fun _ => k))
  (at level 100, k at level 200, right associativity) : drv_scope.
Open Scope drv_scope.

Definition emit (e : event) : M unit :=
  fun w => (Ok tt, mkWorld (attached w) (pending w) (trace w ++ [e])).

Definition print (msg : string) : M unit := emit (Print msg).
Definition warn (msg : string) : M unit := emit (Warn msg).
Definition hexdump (data : bytes) : M unit := emit (Hexdump data).

(** ** The transport *)

Definition bulkWrite (ep : Z) (data : bytes) (timeout : Z) : M unit :=
  emit (BulkWrite ep data timeout).

Definition bulkRead (ep : Z) (length : Z) (timeout : Z) : M bytes :=
  fun w =>
    match pending w with
    | [] => (Raise USBError, w)
    | r :: rest =>
        (Ok r, mkWorld (attached w) rest
                 (trace w ++ [BulkRead ep length timeout r]))
    end.

(** ** The command executor *)

(** [COMMANDS[cmdname]]. *)
Definition lookup_command (cmdname : string) : M Command :=
  match COMMANDS !! cmdname with
  | Some c => ret c
  | None => raise (KeyError cmdname)
  end.

Definition command (cmdname : string) (payload : bytes) (timeout : Z)
  : M bytes :=
  let* c := lookup_command cmdname in
  let cmd := c_command c ++ payload in
  (if negb (len cmd =? out_len c)
   then warn ("Wrong command size: " +:+ str_int (len cmd) +:+ " vs "
              +:+ str_int (out_len c))
   else ret tt) ;;
  bulkWrite (ep_out c) cmd timeout ;;
  let* resp := bulkRead (ep_in c) (in_len c) timeout in
  (if len resp <? in_len c
   then warn ("Device replied with shorter answer: " +:+ str_int (len cmd)
              +:+ " vs " +:+ str_int (in_len c))
   else ret tt) ;;
  ret resp.

(** ** Workflows

    A [bytes] object is immutable: where the source reads [resp[1]] again
    after a first read succeeded, the model reuses the value read. *)

(** The expression
    [(struct.pack("B", 0xf0 | (id + 5)) + data).ljust(69, b"\x00")]
    that builds the payload of [commit] (in [enroll]) and of [delete]
    (in [delete_by_id] and in the [delete_all] branch of [main]). *)
Definition marked_payload (id : Z) (data : bytes) : outcome bytes :=
  match struct_pack [Z.lor 0xf0 (id + 5)] with
  | Ok marker => Ok (ljust (marker ++ data) 69 x00)
  | Raise e => Raise e
  | OutOfFuel => OutOfFuel
  end.

Fixpoint verify (fuel : nat) : M Z :=
  match fuel with
  | O => out_of_fuel
  | S fuel' =>
      print "Place finger on reader" ;;
      let* resp := command "verify" [] 5000 in
      let* status := lift (getitem resp 1) in
      let error := get_error status in
      if truthy error then
        print (str_opt error) ;;
        verify fuel'
      else
        print ("Recognized finger: " +:+ str_int status) ;;
        ret status
  end.

Fixpoint get_finger_info (fuel : nat) (finger_id : Z) : M bytes :=
  match fuel with
  | O => out_of_fuel
  | S fuel' =>
      let* idb := lift (to_bytes1 finger_id) in
      let* resp := command "finger_info" idb 2000 in
      let* status := lift (getitem resp 1) in
      if status =? 0xff then
        print "Sensor is angry, verify a finger to calm it down" ;;
        verify fuel' ;;
        get_finger_info fuel' finger_id
      else if len resp =? 2 then
        raise (IOError ("Error: " +:+ str_opt (get_error status)))
      else ret resp
  end.

Definition delete (fuel : nat) (fpid : Z) (payload : bytes) : M unit :=
  let* resp := command "delete" payload 2000 in
  let* status := lift (getitem resp 1) in
  let error := get_error status in
  if negb (status =? 0) then
    print ("Error: " +:+ str_opt error +:+ " (" +:+ hex status +:+ ")")
  else
    print "Deleted, finger info:" ;;
    let* resp := get_finger_info fuel fpid in
    hexdump resp.

Definition delete_by_id (fuel : nat) (fpid : Z) : M unit :=
  let* resp := get_finger_info fuel fpid in
  let* payload := lift (marked_payload fpid (drop 2 resp)) in
  delete fuel fpid payload.

(** How a loop of [enroll] ends: the loop is left and the function goes on,
    or the function returns from inside the loop. *)
Inductive loop_end :=
| Left
| Returned.

(** The first loop of [enroll]: wait for a finger the sensor does not know. *)
Fixpoint enroll_precheck_loop (fuel : nat) : M unit :=
  match fuel with
  | O => out_of_fuel
  | S fuel' =>
      print "Place finger on reader" ;;
      let* resp := command "verify" [] 5000 in
      let* status := lift (getitem resp 1) in
      let error := get_error status in
      if negb (truthy error) then
        print ("Finger already enrolled: " +:+ str_int status) ;;
        enroll_precheck_loop fuel'
      else if negb (status =? 0xfd) then
        print ("Error: " +:+ str_opt error) ;;
        enroll_precheck_loop fuel'
      else
        print "Proceeding"
  end.

(** The second loop of [enroll]:
    [while attempts_done < total_attempts]. *)
Fixpoint enroll_sampling_loop (fuel : nat)
  (new_finger_id total_attempts attempts_done : Z) : M loop_end :=
  match fuel with
  | O => out_of_fuel
  | S fuel' =>
      if attempts_done <? total_attempts then
        print ("Place finger on reader [" +:+ str_int (attempts_done + 1)
               +:+ "/" +:+ str_int total_attempts +:+ "]") ;;
        let* payload :=
          lift (struct_pack
                  [new_finger_id; total_attempts; attempts_done; 0]) in
        let* resp := command "enroll" payload 10000 in
        let* status := lift (getitem resp 1) in
        let error := get_error status in
        if negb (status =? 0) then
          print ("Error: " +:+ str_opt error +:+ " (" +:+ hex status
                 +:+ ")") ;;
          if status =? 0xdd then ret Returned
          else enroll_sampling_loop fuel' new_finger_id total_attempts
                 attempts_done
        else
          enroll_sampling_loop fuel' new_finger_id total_attempts
            (attempts_done + 1)
      else ret Left
  end.

Definition enroll (fuel : nat) (user_data : bytes) : M unit :=
  let* resp := command "enrolled_num" [] 2000 in
  let* status := lift (getitem resp 1) in
  let error := get_error status in
  if truthy error then
    print ("Failed to retrieve currently enrolled fingers: "
           +:+ str_opt error)
  else
    let new_finger_id := status in
    let enrolled := status in
    print ("Enrolled fingers: " +:+ str_int enrolled) ;;
    enroll_precheck_loop fuel ;;
    let total_attempts := 8 in
    let attempts_done := 0 in
    let* e :=
      enroll_sampling_loop fuel new_finger_id total_attempts attempts_done in
    match e with
    | Returned => ret tt
    | Left =>
        let* resp := command "after_enroll" [] 2000 in
        print ("Whatever this means: " +:+ bytes_hex resp) ;;
        print "Committing enrolled finger" ;;
        let* payload := lift (marked_payload new_finger_id user_data) in
        let* resp := command "commit" payload 2000 in
        let* status := lift (getitem resp 1) in
        if status =? 0 then print "Enroll successful 🎉"
        else print ("Sensor is angry: " +:+ bytes_hex resp)
    end.

(** ** The image pipeline *)

Definition obind {A B} (o : outcome A) (k : A -> outcome B) : outcome B :=
  match o with
  | Ok a => k a
  | Raise e => Raise e
  | OutOfFuel => OutOfFuel
  end.

(** [range(start, stop)]. *)
Definition range (start stop : Z) : list Z := seqZ start (stop - start).

(** A [for] loop whose body updates the local variables [s]. *)
Fixpoint for_each {St} (l : list Z) (body : Z -> St -> outcome St) (s : St)
  : outcome St :=
  match l with
  | [] => Ok s
  | i :: l' => obind (body i s) (for_each l' body)
  end.

(** An image of PIL: its size and its pixels, row after row. *)
Record image := mkImage {
  im_width : Z;
  im_height : Z;
  im_data : list Z
}.

(** The samples of a buffer of 16-bit little-endian words. *)
Fixpoint samples16 (data : bytes) : list Z :=
  match data with
  | lo :: hi :: rest => (int_of_byte lo + 256 * int_of_byte hi) :: samples16 rest
  | _ => []
  end.

(** [Image.frombuffer("I;16L", (width, height), data)]: fails when the
    buffer holds fewer than [width * height] samples. *)
Definition frombuffer (width height : Z) (data : bytes) : outcome image :=
  if len data <? 2 * width * height then Raise ValueError
  else Ok (mkImage width height
             (take (Z.to_nat (width * height)) (samples16 data))).

(** [Image.new("L", (width, height))]. *)
Definition new_image (width height : Z) : image :=
  mkImage width height (replicate (Z.to_nat (width * height)) 0).

Definition in_image (img : image) (x y : Z) : bool :=
  (0 <=? x) && (x <? im_width img) && (0 <=? y) && (y <? im_height img).

(** [img.getpixel((x, y))]. *)
Definition getpixel (img : image) (x y : Z) : outcome Z :=
  if in_image img x y then
    match im_data img !! Z.to_nat (y * im_width img + x) with
    | Some v => Ok v
    | None => Raise IndexError
    end
  else Raise IndexError.

(** What an image of mode ["L"] keeps of an [int] it is handed: Pillow
    clips the value to the 8 bits of a pixel, nothing below 0 and nothing
    above 255. *)
Definition clip8 (v : Z) : Z :=
  if v <=? 0 then 0 else if v <? 256 then v else 255.

(** [img.putpixel((x, y), v)] on an image of mode ["L"]. *)
Definition putpixel (img : image) (x y : Z) (v : Z) : outcome image :=
  if in_image img x y then
    Ok (mkImage (im_width img) (im_height img)
          (<[Z.to_nat (y * im_width img + x) := clip8 v]> (im_data img)))
  else Raise IndexError.

(** [int(a / b)] for two [int]s: true division, then truncation towards
    zero.  The quotient of the floats is the nearest double to the exact
    quotient; every use below has [0 <= a < 2^24] and [0 < b < 2^16], where
    a quotient that is not whole lies at least [1/b] from the next integer,
    far more than rounding moves it, so that the truncation of the float is
    the truncation of the exact quotient. *)
Definition int_truediv (a b : Z) : outcome Z :=
  if b =? 0 then Raise ZeroDivisionError
  else Ok (Z.quot a b).

(** The first pair of loops of the capture branch: minimum and maximum. *)
Definition minmax (img : image) (width height : Z) : outcome (Z * Z) :=
  let minv := Z.shiftl 2 (16 - 1) in
  let maxv := 0 in
  for_each (range 0 height) (fun y =>
    for_each (range 0 width) (fun x '(minv, maxv) =>
      obind (getpixel img x y) (fun v =>
      Ok (Z.min minv v, Z.max v maxv))))
    (minv, maxv).

(** The second pair of loops: conversion to 8-bit greyscale. *)
Definition to_8bit (img : image) (width height minv maxv : Z)
  : outcome image :=
  let img_8b := new_image width height in
  let diff := maxv - minv in
  for_each (range 0 height) (fun y =>
    for_each (range 0 width) (fun x img_8b =>
      obind (getpixel img x y) (fun v =>
      obind (int_truediv ((v - minv) * 256) diff) (fun p =>
      putpixel img_8b x y p))))
    img_8b.

(** ** The entry point *)

(** What [docopt] hands to [main]: the chosen command with its arguments,
    numbers already read by [int]. *)
Inductive args :=
| ArgReset
| ArgFingerInfo (id : Z)
| ArgVerify
| ArgEnrolledCount
| ArgEnroll (user : bytes)
| ArgDelete (id : Z)
| ArgFingerInfoAll
| ArgDeleteAll
| ArgFwVer
| ArgCapture (png : string)
| ArgRaw (ep_in : Z) (hexs : list Z).

(** A [for] loop over effects. *)
Fixpoint for_ (l : list Z) (body : Z -> M unit) : M unit :=
  match l with
  | [] => ret tt
  | i :: l' => body i ;; for_ l' body
  end.

(** [bytes(ints)]. *)
Fixpoint bytes_of_ints (l : list Z) : outcome bytes :=
  match l with
  | [] => Ok []
  | v :: l' =>
      if (v <? 0) || (255 <? v) then Raise ValueError
      else match Byte.of_N (Z.to_N v) with
           | Some b => obind (bytes_of_ints l') (fun bs => Ok (b :: bs))
           | None => Raise ValueError
           end
  end.

(** The body of the [for] loop of the [delete_all] branch. *)
Definition delete_all_body (fuel : nat) (finger_id : Z) : M unit :=
  let* resp := get_finger_info fuel finger_id in
  let* last := lift (getitem resp (-1)) in
  if last =? 0xff then
    print ("Finger " +:+ str_int finger_id +:+ " not enrolled")
  else
    let* payload := lift (marked_payload finger_id (drop 2 resp)) in
    delete fuel finger_id payload.

(** The [capture] branch. *)
Definition capture (png : string) : M unit :=
  let* resp := command "sensor_size" [] 2000 in
  let* r0 := lift (getitem resp 0) in
  let width := r0 + 1 in
  let* r2 := lift (getitem resp 2) in
  let height := r2 + 1 in
  bulkWrite 1 [x00; x09] 5000 ;;
  let* resp := bulkRead 2 (2 * width * height) 5000 in
  let* img := lift (frombuffer width height resp) in
  let* mm := lift (minmax img width height) in
  let '(minv, maxv) := mm in
  let* img_8b := lift (to_8bit img width height minv maxv) in
  emit (SavePng png (im_width img_8b) (im_height img_8b) (im_data img_8b)).

(** The [try] block of [main]. *)
Definition main_body (fuel : nat) (a : args) : M unit :=
  match a with
  | ArgReset => emit ResetDevice
  | ArgVerify => verify fuel ;; ret tt
  | ArgFwVer =>
      let* resp := command "fw_ver" [] 2000 in
      let* r0 := lift (getitem resp 0) in
      let* r1 := lift (getitem resp 1) in
      print ("Version: " +:+ str_int r0 +:+ "." +:+ str_int r1)
  | ArgFingerInfo finger_id =>
      let* resp := get_finger_info fuel finger_id in
      print "Finger info:" ;;
      hexdump resp
  | ArgFingerInfoAll =>
      for_ (range 0 10) (fun finger_id =>
        let* resp := get_finger_info fuel finger_id in
        print ("Finger info " +:+ str_int finger_id +:+ ":") ;;
        hexdump resp)
  | ArgEnrolledCount =>
      let* resp := command "enrolled_num" [] 2000 in
      let* r1 := lift (getitem resp 1) in
      print ("Enrolled fingers: " +:+ str_int r1)
  | ArgEnroll user => enroll fuel user
  | ArgRaw ep hexs =>
      let* payload := lift (bytes_of_ints hexs) in
      print ("Sending [" +:+ str_int (len payload) +:+ "]:") ;;
      hexdump payload ;;
      print "" ;;
      bulkWrite 1 payload 5000 ;;
      let* resp := bulkRead ep 1000 5000 in
      print ("Received [" +:+ str_int (len resp) +:+ "]:") ;;
      hexdump resp
  | ArgDelete finger_id => delete_by_id fuel finger_id
  | ArgDeleteAll => for_ (range 0 10) (delete_all_body fuel)
  | ArgCapture png => capture png
  end.

(** [main], from the point where the device is opened: an exception of the
    [try] block is reported, an [abort] command is written (with the
    default timeout of [bulkWrite], 0), and the exception goes on. *)
Definition main (fuel : nat) (a : args) : M unit :=
  fun w =>
    if negb (attached w) then (Raise (OSError "Failed to open USB device"), w)
    else
      match main_body fuel a w with
      | (Raise e, w') =>
          (print "Aborting" ;;
           let* c := lookup_command "abort" in
           bulkWrite 1 (c_command c) 0 ;;
           raise e) w'
      | r => r
      end.

(** ** Binary64 division, for cross-checking [int_truediv]

    [a / b] on two [int]s that fit a double is the IEEE 754 quotient of the
    two doubles; [int] then drops the fraction. *)

Definition float_of_int (n : Z) : spec_float :=
  binary_normalize 53 1024 n 0 false.

Definition int_of_float (f : spec_float) : option Z :=
  match f with
  | S754_zero _ => Some 0
  | S754_finite s m e =>
      let a := match e with
               | Z0 => Zpos m
               | Zpos p => Zpos m * 2 ^ Zpos p
               | Zneg p => Zpos m / 2 ^ Zpos p
               end in
      Some (if s then - a else a)
  | _ => None
  end.

Definition truediv64 (a b : Z) : option Z :=
  int_of_float (SFdiv 53 1024 (float_of_int a) (float_of_int b)).

(** ** Observations on a run *)

(** The value of [resp[1]], the status byte, where it exists. *)
Definition status_of (resp : bytes) : Z :=
  match resp with
  | _ :: b :: _ => int_of_byte b
  | _ => 0
  end.

(** The value of [resp[-1]] where it exists. *)
Definition last_of (resp : bytes) : Z := from_option int_of_byte 0 (last resp).

(** The byte whose value is [v], for [0 <= v <= 255]. *)
Definition byte_of (v : Z) : byte := default x00 (Byte.of_N (Z.to_N v)).

(** What one call of [command] adds to the trace when the sensor answers
    [resp]. *)
Definition command_trace (c : Command) (payload : bytes) (timeout : Z)
  (resp : bytes) : list event :=
  let cmd := c_command c ++ payload in
  (if negb (len cmd =? out_len c)
   then [Warn ("Wrong command size: " +:+ str_int (len cmd) +:+ " vs "
               +:+ str_int (out_len c))]
   else []) ++
  [BulkWrite (ep_out c) cmd timeout;
   BulkRead (ep_in c) (in_len c) timeout resp] ++
  (if len resp <? in_len c
   then [Warn ("Device replied with shorter answer: " +:+ str_int (len cmd)
               +:+ " vs " +:+ str_int (in_len c))]
   else []).

(** The bulk writes of a trace, oldest first: endpoint, data, timeout. *)
Definition write_of (e : event) : option (Z * bytes * Z) :=
  match e with
  | BulkWrite ep data timeout => Some (ep, data, timeout)
  | _ => None
  end.

Definition writes (tr : list event) : list (Z * bytes * Z) :=
  omap write_of tr.

(** [sends c tr]: some bulk write of the trace starts with the opcode of
    the command [c]. *)
Definition sends (c : Command) (tr : list event) : Prop :=
  exists ep data timeout,
    In (ep, data, timeout) (writes tr) /\
    take (length (c_command c)) data = c_command c.

(** The entries of [COMMANDS] that the workflows use. *)
Definition verify_cmd : Command := mkCommand [x40; xff; x03] 3 2 1 4.
Definition finger_info_cmd : Command := mkCommand [x40; xff; x12] 4 64 1 3.
Definition enrolled_num_cmd : Command := mkCommand [x40; xff; x04] 3 2 1 3.
Definition abort_cmd : Command := mkCommand [x40; xff; x02] 3 2 1 3.
Definition enroll_cmd : Command := mkCommand [x40; xff; x01] 7 2 1 4.
Definition delete_cmd : Command := mkCommand [x40; xff; x13] 72 2 1 3.

(** *** Status interpreter *)

Definition hex_digit (d : Z) : string :=
  match d with
  | 0 => "0" | 1 => "1" | 2 => "2" | 3 => "3" | 4 => "4" | 5 => "5"
  | 6 => "6" | 7 => "7" | 8 => "8" | 9 => "9" | 10 => "a" | 11 => "b"
  | 12 => "c" | 13 => "d" | 14 => "e" | _ => "f"
  end.

(** The rendering ["Unknown error 0x%02x"] of a status byte. *)
Definition unknown_error_02x (b : Z) : string :=
  "Unknown error 0x" +:+ hex_digit (b / 16) +:+ hex_digit (b mod 16).

(** *** Verify *)

(** One turn of the loop of [verify] on the answer [resp]. *)
Definition verify_trace (resp : bytes) (status : Z) : list event :=
  [Print "Place finger on reader"] ++
  command_trace verify_cmd [] 5000 resp ++
  [Print (if truthy (get_error status) then str_opt (get_error status)
          else "Recognized finger: " +:+ str_int status)].

Definition verify_run_trace (resps : list bytes) : list event :=
  flat_map (fun r => verify_trace r (status_of r)) resps.

(** *** Finger info *)

Definition info_trace (finger_id : Z) (resp : bytes) : list event :=
  command_trace finger_info_cmd [byte_of finger_id] 2000 resp.

Definition angry_msg : event :=
  Print "Sensor is angry, verify a finger to calm it down".

(** One round of calming: the angry answer to [finger_info], then the
    answers to the [verify] that follows, first those that [verify] asks
    again for, then the one that ends it. *)
Record calming := mkCalming {
  angry : bytes;
  retried : list bytes;
  calm : bytes
}.

Definition round_script (round : calming) : list bytes :=
  angry round :: retried round ++ [calm round].

Definition round_trace (finger_id : Z) (round : calming) : list event :=
  info_trace finger_id (angry round) ++ [angry_msg] ++
  verify_run_trace (retried round ++ [calm round]).

Definition round_writes (finger_id : Z) (round : calming)
  : list (Z * bytes * Z) :=
  (1, [x40; xff; x12; byte_of finger_id], 2000) ::
  replicate (S (length (retried round))) (1, [x40; xff; x03], 5000).

Definition angry_round (round : calming) : Prop :=
  2 <= len (angry round) /\ status_of (angry round) = 0xff /\
  Forall (fun h => 2 <= len h /\ get_error (status_of h) <> None)
    (retried round) /\
  2 <= len (calm round) /\ get_error (status_of (calm round)) = None.

(** The text of [str(get_error(b))] for a status byte [b]. *)
Definition status_text (b : Z) : string :=
  if Z.land b 0xF0 =? 0 then "None"
  else match ERRORS !! b with
       | Some description => description
       | None => unknown_error_02x b
       end.

(** How [get_finger_info] ends on an answer [rec] that is not angry. *)
Definition info_result (rec : bytes) : outcome bytes :=
  if len rec =? 2
  then Raise (IOError ("Error: " +:+ str_opt (get_error (status_of rec))))
  else Ok rec.

(** *** Delete *)

Definition abort_trace : list event :=
  [Print "Aborting"; BulkWrite 1 [x40; xff; x02] 0].

(** The payload of [delete] for the slot [id] with record [rec]:
    marker, [rec[2:]], zero padding up to 69 bytes. *)
Definition delete_payload (id : Z) (rec : bytes) : bytes :=
  ljust (byte_of (Z.lor 0xf0 (id + 5)) :: drop 2 rec) 69 x00.

(** What the sensor answers for one slot of the sweep of [delete_all]:
    a record that marks the slot free; a record, then a refusal of the
    delete; a record, an accepted delete, then the record read again. *)
Inductive slot :=
| SlotFree (rec : bytes)
| SlotRefused (rec d : bytes)
| SlotDeleted (rec d rec2 : bytes).

Definition valid_record (rec : bytes) : Prop :=
  3 <= len rec /\ status_of rec <> 0xff.



Definition delete_trace (id : Z) (rec d : bytes) : list event :=
  command_trace delete_cmd (delete_payload id rec) 2000 d.

Definition slot_trace (id : Z) (s : slot) : list event :=
  match s with
  | SlotFree rec =>
      info_trace id rec ++
      [Print ("Finger " +:+ str_int id +:+ " not enrolled")]
  | SlotRefused rec d =>
      info_trace id rec ++ delete_trace id rec d ++
      [Print ("Error: " +:+ str_opt (get_error (status_of d)) +:+ " ("
              +:+ hex (status_of d) +:+ ")")]
  | SlotDeleted rec d rec2 =>
      info_trace id rec ++ delete_trace id rec d ++
      [Print "Deleted, finger info:"] ++ info_trace id rec2 ++
      [Hexdump rec2]
  end.


Definition info_write (id : Z) : Z * bytes * Z :=
  (1, [x40; xff; x12; byte_of id], 2000).

Definition delete_write (id : Z) (rec : bytes) : Z * bytes * Z :=
  (1, [x40; xff; x13] ++ delete_payload id rec, 2000).

Definition slot_writes (id : Z) (s : slot) : list (Z * bytes * Z) :=
  match s with
  | SlotFree _ => [info_write id]
  | SlotRefused rec _ => [info_write id; delete_write id rec]
  | SlotDeleted rec _ _ => [info_write id; delete_write id rec; info_write id]
  end.


(** *** Enroll *)

Definition sample_payload (finger_id attempts_done : Z) : bytes :=
  [byte_of finger_id; x08; byte_of attempts_done; x00].

(** One turn of the sampling loop on the answer [resp]. *)
Definition sample_trace (finger_id attempts_done : Z) (resp : bytes)
  : list event :=
  [Print ("Place finger on reader [" +:+ str_int (attempts_done + 1)
          +:+ "/" +:+ str_int 8 +:+ "]")] ++
  command_trace enroll_cmd (sample_payload finger_id attempts_done) 10000 resp ++
  (if negb (status_of resp =? 0)
   then [Print ("Error: " +:+ str_opt (get_error (status_of resp)) +:+ " ("
                +:+ hex (status_of resp) +:+ ")")]
   else []).

(** The attempt counter after the answer [resp], in the words of the
    protocol: a sample counts when its status is 0, any other status leaves
    the counter where it is. *)
Definition next_attempt (attempts_done : Z) (resp : bytes) : Z :=
  if status_of resp =? 0 then attempts_done + 1 else attempts_done.

Fixpoint sampling_trace (finger_id attempts_done : Z) (resps : list bytes)
  : list event :=
  match resps with
  | [] => []
  | r :: resps' =>
      sample_trace finger_id attempts_done r ++
      sampling_trace finger_id (next_attempt attempts_done r) resps'
  end.

(** The [enroll] commands that the protocol asks for on the answers
    [resps]: one per answer, each with the attempt index reached so far. *)
Fixpoint sampling_writes (finger_id attempts_done : Z) (resps : list bytes)
  : list (Z * bytes * Z) :=
  match resps with
  | [] => []
  | r :: resps' =>
      (1, [x40; xff; x01] ++ sample_payload finger_id attempts_done, 10000)
      :: sampling_writes finger_id (next_attempt attempts_done r) resps'
  end.

(** The number of answers with status 0. *)
Fixpoint successes (resps : list bytes) : Z :=
  match resps with
  | [] => 0
  | r :: resps' => (if status_of r =? 0 then 1 else 0) + successes resps'
  end.

(** What [enroll] adds to the trace before its sampling loop, when the
    count query is answered by [num] and the first [verify] by [pre]. *)
Definition enroll_head_trace (num pre : bytes) : list event :=
  command_trace enrolled_num_cmd [] 2000 num ++
  [Print ("Enrolled fingers: " +:+ str_int (status_of num));
   Print "Place finger on reader"] ++
  command_trace verify_cmd [] 5000 pre ++
  [Print "Proceeding"].

(** *** Image pipeline *)

(** An image whose data fill its [width] x [height] frame. *)
Definition well_formed (img : image) (width height : Z) : Prop :=
  im_width img = width /\ im_height img = height /\
  0 < width /\ 0 < height /\ len (im_data img) = width * height.

(** One step of the search for the minimum and the maximum. *)
Definition minmax_step (mm : Z * Z) (v : Z) : Z * Z :=
  (Z.min (fst mm) v, Z.max v (snd mm)).

(** The value the conversion computes for the sample [v]. *)
Definition scale (minv maxv v : Z) : Z :=
  Z.quot ((v - minv) * 256) (maxv - minv).

(** The pixel the image keeps for the sample [v]. *)
Definition pixel (minv maxv v : Z) : Z := clip8 (scale minv maxv v).

(** The nearest integer to [a / b], for [0 < b]; a half goes up. *)
Definition round_div (a b : Z) : Z := (2 * a + b) / (2 * b).

(** The pixel as the specification words it:
    [round((v - min) * 256 / (max - min))], clamped to [0, 255]. *)
Definition claimed_pixel (minv maxv v : Z) : Z :=
  Z.max 0 (Z.min 255 (round_div ((v - minv) * 256) (maxv - minv))).

(** *** Further observations *)

Definition after_enroll_cmd : Command := mkCommand [x40; xff; x10] 3 3 1 3.
Definition commit_cmd : Command := mkCommand [x40; xff; x11] 72 2 1 3.

(** The bulk reads of a trace: endpoint, length asked for, timeout, data. *)
Definition read_of (e : event) : option (Z * Z * Z * bytes) :=
  match e with
  | BulkRead ep length timeout data => Some (ep, length, timeout, data)
  | _ => None
  end.

Definition reads (tr : list event) : list (Z * Z * Z * bytes) :=
  omap read_of tr.

(** The warnings of a trace. *)
Definition warning_of (e : event) : option string :=
  match e with
  | Warn msg => Some msg
  | _ => None
  end.

Definition warnings (tr : list event) : list string := omap warning_of tr.

(** An event that fits the command table: a bulk write is the frame of one
    of the commands, on its output endpoint and of the size the table states
    for it; a warning is the one of [command] for a short answer. *)
Definition fits (e : event) : Prop :=
  match e with
  | BulkWrite ep data _ =>
      exists cmdname c payload,
        COMMANDS !! cmdname = Some c /\ ep = ep_out c /\
        data = c_command c ++ payload /\ len data = out_len c
  | Warn msg =>
      exists cmdname c,
        COMMANDS !! cmdname = Some c /\
        msg = "Device replied with shorter answer: " +:+ str_int (out_len c)
              +:+ " vs " +:+ str_int (in_len c)
  | _ => True
  end.

(** No answer of the script has more than [n] bytes. *)
Definition answers_within (n : Z) (w : world) : Prop :=
  Forall (fun r => len r <= n) (pending w).

(** The trace of [w'] is that of [w] followed by events that all fit. *)
Definition fitting_step (w w' : world) : Prop :=
  exists tr', trace w' = trace w ++ tr' /\ Forall fits tr'.

(** A computation that, from a world whose answers have at most 70 bytes,
    adds only fitting events, leaves such a world, and returns within
    [R]. *)
Definition fitting {A} (R : A -> Prop) (m : M A) : Prop :=
  forall w, answers_within 70 w ->
    answers_within 70 (snd (m w)) /\ fitting_step w (snd (m w)) /\
    forall a, fst (m w) = Ok a -> R a.

(** What a run may end in: a value within [R], or an exception within
    [E]. *)
Definition outcome_ok {A} (E : exn -> Prop) (R : A -> Prop) (o : outcome A)
  : Prop :=
  match o with
  | Ok a => R a
  | Raise e => E e
  | OutOfFuel => True
  end.

(** What a run may do to the world: the device stays as it is, the answers
    are taken from the front of the script, and the trace grows at its end
    by events whose bulk writes are all within [Wr]. *)
Definition grows (Wr : Z * bytes * Z -> Prop) (w w' : world) : Prop :=
  attached w' = attached w /\
  (exists k, pending w' = drop k (pending w)) /\
  exists tr', trace w' = trace w ++ tr' /\ Forall Wr (writes tr').

(** A computation that, from any world, stays within [E], [Wr] and [R]. *)
Definition confined {A} (E : exn -> Prop) (Wr : Z * bytes * Z -> Prop)
  (R : A -> Prop) (m : M A) : Prop :=
  forall w, grows Wr w (snd (m w)) /\ outcome_ok E R (fst (m w)).

(** The frame of [verify]. *)
Definition verify_write : Z * bytes * Z := (1, [x40; xff; x03], 5000).

(** A failure of the transport, or an answer too short to index. *)
Definition transport_or_index (e : exn) : Prop :=
  e = USBError \/ e = IndexError.

(** The exceptions that may leave [get_finger_info] for the id
    [finger_id]. *)
Definition info_exn (finger_id : Z) (e : exn) : Prop :=
  e = USBError \/ e = IndexError \/ (exists msg, e = IOError msg) \/
  (e = OverflowError /\ ~ 0 <= finger_id <= 255).


(** The bulk writes of a lookup of the slot [finger_id]. *)
Definition info_io (finger_id : Z) (wr : Z * bytes * Z) : Prop :=
  wr = verify_write \/ wr = info_write finger_id.


(** A frame of one of the commands [cs], on its output endpoint. *)
Definition frame_of (cs : list Command) (wr : Z * bytes * Z) : Prop :=
  exists c payload timeout,
    In c cs /\ wr = (ep_out c, c_command c ++ payload, timeout).

(** The commands of an enrollment. *)
Definition enroll_cmds : list Command :=
  [enrolled_num_cmd; verify_cmd; enroll_cmd; after_enroll_cmd; commit_cmd].

(** One turn of the first loop of [enroll] on the answer [resp]. *)
Definition precheck_trace (resp : bytes) : list event :=
  [Print "Place finger on reader"] ++
  command_trace verify_cmd [] 5000 resp ++
  [Print (if negb (truthy (get_error (status_of resp)))
          then "Finger already enrolled: " +:+ str_int (status_of resp)
          else if negb (status_of resp =? 0xfd)
               then "Error: " +:+ str_opt (get_error (status_of resp))
               else "Proceeding")].

(** What [enroll] adds to the trace after its sampling loop, when
    [after_enroll] is answered by [ae] and [commit] by [cm]. *)
Definition enroll_tail_trace (finger_id : Z) (user_data ae cm : bytes)
  : list event :=
  command_trace after_enroll_cmd [] 2000 ae ++
  [Print ("Whatever this means: " +:+ bytes_hex ae);
   Print "Committing enrolled finger"] ++
  command_trace commit_cmd
    (ljust (byte_of (Z.lor 0xf0 (finger_id + 5)) :: user_data) 69 x00)
    2000 cm ++
  [Print (if status_of cm =? 0 then "Enroll successful 🎉"
          else "Sensor is angry: " +:+ bytes_hex cm)].

(** What the [finger_info_all] branch adds to the trace for the slot [id]
    with record [rec]. *)
Definition listing_trace (id : Z) (rec : bytes) : list event :=
  info_trace id rec ++
  [Print ("Finger info " +:+ str_int id +:+ ":"); Hexdump rec].

Fixpoint listing_sweep_trace (id : Z) (recs : list bytes) : list event :=
  match recs with
  | [] => []
  | rec :: recs' => listing_trace id rec ++ listing_sweep_trace (id + 1) recs'
  end.

(** The body of the [for] loop of the [finger_info_all] branch. *)
Definition listing_body (fuel : nat) (finger_id : Z) : M unit :=
  let* resp := get_finger_info fuel finger_id in
  print ("Finger info " +:+ str_int finger_id +:+ ":") ;;
  hexdump resp.

Definition sensor_size_cmd : Command := mkCommand [x00; x0c] 2 4 1 3.

(** The value of [resp[i]] for [0 <= i], where it exists. *)
Definition byte_at (resp : bytes) (i : nat) : Z :=
  from_option int_of_byte 0 (resp !! i).

(** * Properties *)

Arguments command : simpl never.
Arguments str_int : simpl never.
Arguments get_error : simpl never.
Arguments hex : simpl never.

(** ** Bytes and lists *)

Lemma Forall_seqZ_range (P : Z -> Prop) (m n : Z) :
  Forall P (seqZ m n) -> forall b, m <= b < m + n -> P b.
Proof.
  intros H b Hb. rewrite Forall_forall in H. apply H.
  apply elem_of_seqZ. lia.
Qed.

Lemma len_app {A} (l1 l2 : list A) : len (l1 ++ l2) = len l1 + len l2.
Proof. unfold len. rewrite length_app. lia. Qed.

Lemma len_ljust b width fill : len b <= width -> len (ljust b width fill) = width.
Proof.
  intros H. unfold ljust. rewrite len_app. unfold len in *.
  rewrite length_replicate. lia.
Qed.

Lemma ljust_long b width fill : width <= len b -> ljust b width fill = b.
Proof.
  intros H. unfold ljust.
  replace (Z.to_nat (width - len b)) with O by lia. apply app_nil_r.
Qed.

Lemma byte_of_N_lt (n : N) :
  (n < 256)%N -> exists b, Byte.of_N n = Some b /\ Byte.to_N b = n.
Proof.
  intros H. destruct (Byte.of_N n) as [b|] eqn:E.
  - exists b. split; [reflexivity|]. apply Byte.to_of_N; assumption.
  - apply Byte.of_N_None_iff in E. lia.
Qed.

Lemma int_of_byte_range b : 0 <= int_of_byte b <= 255.
Proof. unfold int_of_byte. pose proof (Byte.to_N_bounded b). lia. Qed.

Lemma int_of_byte_of v : 0 <= v <= 255 -> int_of_byte (byte_of v) = v.
Proof.
  intros H. unfold byte_of, int_of_byte.
  destruct (byte_of_N_lt (Z.to_N v)) as (b & -> & Hb); [lia|].
  simpl. rewrite Hb. lia.
Qed.

Lemma pack_B_ok v : 0 <= v <= 255 -> pack_B v = Ok (byte_of v).
Proof.
  intros H. unfold pack_B, byte_of.
  destruct (Z.ltb_spec v 0); [lia|].
  destruct (byte_of_N_lt (Z.to_N v)) as (b & -> & Hb); [lia|]. reflexivity.
Qed.

Lemma to_bytes1_ok v : 0 <= v <= 255 -> to_bytes1 v = Ok [byte_of v].
Proof.
  intros H. unfold to_bytes1, byte_of.
  destruct (Z.ltb_spec v 0); [lia|].
  destruct (byte_of_N_lt (Z.to_N v)) as (b & -> & Hb); [lia|]. reflexivity.
Qed.

Lemma status_of_range r : 0 <= status_of r <= 255.
Proof.
  destruct r as [|a [|b r]]; cbn [status_of]; try lia. apply int_of_byte_range.
Qed.

Lemma getitem_status r : 2 <= len r -> getitem r 1 = Ok (status_of r).
Proof.
  destruct r as [|a [|b r]]; unfold len; cbn [length]; try lia.
  intros _. unfold getitem.
  destruct (Z.ltb_spec 1 (len (a :: b :: r))) as [H|H].
  - reflexivity.
  - unfold len in H; cbn [length] in H; lia.
Qed.

Lemma getitem_short r : len r < 2 -> getitem r 1 = Raise IndexError.
Proof.
  intros H. unfold getitem. destruct (Z.ltb_spec 1 (len r)); [lia|]. reflexivity.
Qed.

Lemma getitem_last rec : 1 <= len rec -> getitem rec (-1) = Ok (last_of rec).
Proof.
  intros H. unfold getitem, last_of.
  destruct (Z.ltb_spec (-1) 0); [|lia].
  destruct (Z.leb_spec (- len rec) (-1)); [|lia].
  cbn [Z.leb Z.compare andb]. rewrite last_lookup.
  replace (Z.to_nat (len rec + -1)) with (pred (length rec))
    by (unfold len in *; lia).
  destruct (rec !! pred (length rec)) eqn:E; [reflexivity|].
  apply lookup_ge_None in E. unfold len in H. lia.
Qed.

Lemma marker_range (id : Z) :
  0 <= id <= 250 -> 0xf0 <= Z.lor 0xf0 (id + 5) <= 255.
Proof.
  intros H. revert id H.
  assert (HF : Forall (fun id => 0xf0 <= Z.lor 0xf0 (id + 5) <= 255)
                 (seqZ 0 251)).
  { apply (bool_decide_unpack _). vm_compute. exact I. }
  intros id H. apply (Forall_seqZ_range _ 0 251 HF). lia.
Qed.

Lemma marked_payload_ok id data :
  0 <= id <= 250 ->
  marked_payload id data =
  Ok (ljust (byte_of (Z.lor 0xf0 (id + 5)) :: data) 69 x00).
Proof.
  intros H. unfold marked_payload. cbn [struct_pack].
  rewrite pack_B_ok; [reflexivity|]. pose proof (marker_range id H). lia.
Qed.

(** ** The status interpreter *)

Lemma hex_of_status (b : Z) :
  0 <= b <= 255 -> Z.land b 0xF0 <> 0 ->
  "Unknown error " +:+ hex b = unknown_error_02x b.
Proof.
  intros Hb. revert b Hb.
  assert (H : Forall (fun b => Z.land b 0xF0 <> 0 ->
                 "Unknown error " +:+ hex b = unknown_error_02x b)
                (seqZ 0 256)).
  { apply (bool_decide_unpack _). vm_compute. exact I. }
  intros b Hb. apply (Forall_seqZ_range _ 0 256 H). lia.
Qed.

Lemma ERRORS_nonempty (b : Z) (d : string) : ERRORS !! b = Some d -> d <> "".
Proof.
  intros H.
  assert (HF : map_Forall (fun _ d => d <> "") ERRORS).
  { apply (bool_decide_unpack _). vm_compute. exact I. }
  exact (HF b d H).
Qed.

Lemma truthy_get_error (b : Z) :
  truthy (get_error b) = true <-> get_error b <> None.
Proof.
  unfold get_error.
  destruct (Z.land b 240 =? 0); simpl; [split; [discriminate|congruence]|].
  destruct (ERRORS !! b) as [d|] eqn:E; simpl.
  - apply ERRORS_nonempty in E. destruct d; [congruence|]. simpl.
    split; [discriminate|reflexivity].
  - split; [discriminate|reflexivity].
Qed.

(** C1. For a status byte [b], [get_error b] is [None] exactly when the high
    nibble of [b] is zero; otherwise it is the description of the error
    table when [b] is one of its codes, and ["Unknown error 0x%02x"] of [b]
    when it is not, so never [None]. *)
Theorem get_error_status_byte (b : Z) :
  0 <= b <= 255 ->
  (get_error b = None <-> Z.land b 0xF0 = 0) /\
  (Z.land b 0xF0 <> 0 ->
   match ERRORS !! b with
   | Some description => get_error b = Some description
   | None => get_error b = Some (unknown_error_02x b)
   end).
Proof.
  intros Hb. unfold get_error.
  destruct (Z.eqb_spec (Z.land b 240) 0) as [E|E].
  - split; [tauto|]. intros; contradiction.
  - split.
    + destruct (ERRORS !! b); split; intros;
        first [discriminate | contradiction].
    + intros _. destruct (ERRORS !! b); [reflexivity|].
      f_equal. apply hex_of_status; assumption.
Qed.

Lemma get_error_status_byte_witness :
  get_error 0xfd = Some "Finger not enrolled" /\
  get_error 0xab = Some "Unknown error 0xab" /\
  (get_error 0x07 = None <-> Z.land 0x07 0xF0 = 0).
Proof.
  split; [|split].
  - apply (get_error_status_byte 0xfd); [lia | discriminate].
  - apply (get_error_status_byte 0xab); [lia | discriminate].
  - apply (get_error_status_byte 0x07). lia.
Defined.

(** ** The payload of [commit] *)

(** C2, as the code has it.  For a finger id from 0 to 250 the payload of
    [commit] is the marker byte [0xF0 | (id + 5)], then the user data, then
    zero bytes up to 69 bytes in all; it is exactly 69 bytes long when the
    user data have at most 68 bytes, and longer user data are not cut: the
    payload is then the marker and all of the user data. *)
Theorem commit_payload_layout (id : Z) (user_data : bytes) :
  0 <= id <= 250 ->
  let marker := byte_of (Z.lor 0xf0 (id + 5)) in
  int_of_byte marker = Z.lor 0xf0 (id + 5) /\
  marked_payload id user_data =
    Ok (marker :: user_data ++ replicate (68 - length user_data) x00) /\
  (len user_data <= 68 ->
   len (marker :: user_data ++ replicate (68 - length user_data) x00) = 69) /\
  (68 < len user_data ->
   marked_payload id user_data = Ok (marker :: user_data)).
Proof.
  intros Hid marker. pose proof (marker_range id Hid) as Hm.
  assert (E : marked_payload id user_data =
              Ok (marker :: user_data ++ replicate (68 - length user_data) x00)).
  { rewrite marked_payload_ok by assumption. unfold ljust, len. cbn [length app].
    replace (Z.to_nat (69 - Z.of_nat (S (length user_data))))
      with (68 - length user_data)%nat by lia.
    reflexivity. }
  split; [|split; [|split]].
  - apply int_of_byte_of. lia.
  - exact E.
  - intros H. unfold len in *. cbn [length].
    rewrite length_app, length_replicate. lia.
  - intros H. rewrite E. unfold len in H.
    replace (68 - length user_data)%nat with O by lia.
    rewrite app_nil_r. reflexivity.
Qed.

Lemma commit_payload_layout_witness :
  marked_payload 3 [x61; x62] = Ok (xf8 :: [x61; x62] ++ replicate 66 x00) /\
  len (xf8 :: [x61; x62] ++ replicate 66 x00) = 69.
Proof.
  destruct (commit_payload_layout 3 [x61; x62]) as (_ & E & L & _); [lia|].
  split; [exact E|]. apply L. unfold len. simpl. lia.
Defined.

(** C2, as stated, fails on user data of 69 bytes: [ljust] pads and does
    not cut, so that the payload has 70 bytes; a whole run of [enroll] on a
    sensor with no finger enrolled ends with the [commit] command carrying
    these 70 bytes. *)
Lemma commit_payload_not_truncated :
  marked_payload 0 (replicate 69 x41) = Ok (xf5 :: replicate 69 x41) /\
  len (xf5 :: replicate 69 x41) = 70 /\
  let w := mkWorld true
             ([x40; x00] :: [x40; xfd] :: replicate 8 [x40; x00]
              ++ [[x40; x00; x00]; [x40; x00]]) [] in
  fst (enroll 9 (replicate 69 x41) w) = Ok tt /\
  last (writes (trace (snd (enroll 9 (replicate 69 x41) w)))) =
    Some (1, [x40; xff; x11] ++ xf5 :: replicate 69 x41, 2000).
Proof. repeat split; vm_compute; reflexivity. Qed.

(** ** The command executor *)

Lemma lookup_verify : COMMANDS !! "verify" = Some verify_cmd.
Proof. reflexivity. Qed.

Lemma lookup_finger_info : COMMANDS !! "finger_info" = Some finger_info_cmd.
Proof. reflexivity. Qed.

Lemma lookup_enrolled_num : COMMANDS !! "enrolled_num" = Some enrolled_num_cmd.
Proof. reflexivity. Qed.

Lemma lookup_abort : COMMANDS !! "abort" = Some abort_cmd.
Proof. reflexivity. Qed.

Lemma lookup_enroll : COMMANDS !! "enroll" = Some enroll_cmd.
Proof. reflexivity. Qed.

Lemma lookup_delete : COMMANDS !! "delete" = Some delete_cmd.
Proof. reflexivity. Qed.

(** A call of [command] on a sensor that answers. *)
Lemma command_ok (cmdname : string) (c : Command) payload timeout r rest att tr :
  COMMANDS !! cmdname = Some c ->
  command cmdname payload timeout (mkWorld att (r :: rest) tr) =
  (Ok r, mkWorld att rest (tr ++ command_trace c payload timeout r)).
Proof.
  intros Hc. unfold command, lookup_command, command_trace. rewrite Hc.
  unfold bind, ret, warn, bulkWrite, bulkRead, emit;
    cbn [attached pending trace].
  destruct (negb _); cbn [attached pending trace];
    destruct (len r <? in_len c); cbn [attached pending trace];
    rewrite <- ?app_assoc; reflexivity.
Qed.

(** A call of [command] on a sensor that stays silent. *)
Lemma command_silent (cmdname : string) (c : Command) payload timeout att tr :
  COMMANDS !! cmdname = Some c ->
  fst (command cmdname payload timeout (mkWorld att [] tr)) = Raise USBError.
Proof.
  intros Hc. unfold command, lookup_command. rewrite Hc.
  unfold bind, ret, warn, bulkWrite, bulkRead, emit;
    cbn [attached pending trace].
  destruct (negb _); reflexivity.
Qed.

Lemma writes_app t1 t2 : writes (t1 ++ t2) = writes t1 ++ writes t2.
Proof. unfold writes. apply omap_app. Qed.

Lemma writes_command_trace c payload timeout r :
  writes (command_trace c payload timeout r) =
  [(ep_out c, c_command c ++ payload, timeout)].
Proof.
  unfold command_trace.
  destruct (negb _); destruct (len r <? in_len c); reflexivity.
Qed.

(** Steps of a run: a [print], a pure computation, a [command]. *)
Ltac run_print :=
  unfold bind at 1; unfold print at 1, emit; cbn [attached pending trace].
Ltac run_lift := unfold bind at 1; unfold lift at 1.
Ltac run_command H :=
  unfold bind at 1; rewrite (command_ok _ _ _ _ _ _ _ _ H).

(** ** Verify *)

Lemma verify_eq (fuel : nat) :
  verify (S fuel) =
  (print "Place finger on reader" ;;
   let* resp := command "verify" [] 5000 in
   let* status := lift (getitem resp 1) in
   let error := get_error status in
   if truthy error then print (str_opt error) ;; verify fuel
   else print ("Recognized finger: " +:+ str_int status) ;; ret status).
Proof. reflexivity. Qed.

Lemma verify_step fuel r rest att tr :
  2 <= len r ->
  verify (S fuel) (mkWorld att (r :: rest) tr) =
  if truthy (get_error (status_of r))
  then verify fuel (mkWorld att rest (tr ++ verify_trace r (status_of r)))
  else (Ok (status_of r),
        mkWorld att rest (tr ++ verify_trace r (status_of r))).
Proof.
  intros Hr. rewrite verify_eq. unfold verify_trace.
  run_print. run_command lookup_verify.
  run_lift. rewrite (getitem_status r Hr).
  destruct (truthy (get_error (status_of r))).
  - run_print. rewrite <- !app_assoc. reflexivity.
  - unfold bind at 1, print, emit, ret; cbn [attached pending trace].
    rewrite <- !app_assoc. reflexivity.
Qed.

Lemma verify_short fuel r rest att tr :
  len r < 2 ->
  fst (verify (S fuel) (mkWorld att (r :: rest) tr)) = Raise IndexError.
Proof.
  intros Hr. rewrite verify_eq.
  run_print. run_command lookup_verify.
  run_lift. rewrite (getitem_short r Hr). reflexivity.
Qed.

(** With more fuel than answers pending, [verify] never stops for want of
    fuel: every turn of its loop uses up one answer, and the read fails once
    none is left. *)
Lemma verify_fuel_enough (fuel : nat) (w : world) :
  (length (pending w) < fuel)%nat -> fst (verify fuel w) <> OutOfFuel.
Proof.
  revert w. induction fuel as [|fuel IH]; intros [att pend tr] Hlt;
    [cbn in Hlt; lia|].
  cbn [pending] in Hlt. destruct pend as [|r rest].
  - rewrite verify_eq. run_print. unfold bind at 1.
    pose proof (command_silent "verify" verify_cmd [] 5000 att
                  (tr ++ [Print "Place finger on reader"]) lookup_verify) as E.
    destruct (command "verify" [] 5000 _) as [o w']. cbn [fst] in E. subst o.
    discriminate.
  - destruct (Z_lt_le_dec (len r) 2) as [Hs|Hs].
    + rewrite verify_short by assumption. discriminate.
    + rewrite verify_step by assumption.
      destruct (truthy (get_error (status_of r))).
      * apply IH. cbn [pending length] in *. lia.
      * discriminate.
Qed.

Lemma writes_verify_trace r s :
  writes (verify_trace r s) = [(1, [x40; xff; x03], 5000)].
Proof.
  unfold verify_trace. rewrite !writes_app, writes_command_trace. reflexivity.
Qed.

(** C4. As long as the status byte of the answer has an error meaning
    (the hints 0x41 to 0x44 among them) [verify] sends the [verify] command
    again, each time with a timeout of 5 s; on the first answer whose status
    byte has none it returns that byte, [resp[1]], as the finger id.  With
    enough fuel for the answers at hand the run ends in that value. *)
Theorem verify_returns_first_clean_status
  (hints : list bytes) (r : bytes) (rest : list bytes) (att : bool)
  (tr : list event) (fuel : nat) :
  Forall (fun h => 2 <= len h /\ get_error (status_of h) <> None) hints ->
  2 <= len r ->
  get_error (status_of r) = None ->
  (length hints < fuel)%nat ->
  verify fuel (mkWorld att (hints ++ r :: rest) tr) =
    (Ok (status_of r),
     mkWorld att rest (tr ++ verify_run_trace (hints ++ [r]))) /\
  writes (verify_run_trace (hints ++ [r])) =
    replicate (S (length hints)) (1, [x40; xff; x03], 5000).
Proof.
  intros Hh Hr Hclean. revert tr fuel.
  induction Hh as [|h hints [Hlen Herr] Hh IH]; intros tr fuel Hfuel.
  - destruct fuel as [|fuel]; [cbn in Hfuel; lia|].
    cbn [app]. rewrite (verify_step _ _ _ _ _ Hr).
    rewrite Hclean. cbn [truthy]. unfold verify_run_trace.
    cbn [flat_map length replicate].
    rewrite app_nil_r, writes_verify_trace. split; reflexivity.
  - destruct fuel as [|fuel]; [cbn in Hfuel; lia|].
    cbn [app]. rewrite (verify_step _ _ _ _ _ Hlen).
    apply truthy_get_error in Herr. rewrite Herr.
    destruct (IH (tr ++ verify_trace h (status_of h)) fuel) as [E W];
      [cbn in Hfuel; lia|].
    rewrite E. unfold verify_run_trace in *. cbn [flat_map length].
    rewrite <- app_assoc. split; [reflexivity|].
    rewrite writes_app, writes_verify_trace, W. reflexivity.
Qed.

Lemma verify_returns_first_clean_status_witness :
  fst (verify 4 (mkWorld true [[x40; x44]; [x40; x44]; [x40; x44]; [x40; x07]] []))
  = Ok 7.
Proof.
  destruct (verify_returns_first_clean_status
              [[x40; x44]; [x40; x44]; [x40; x44]] [x40; x07] [] true [] 4)
    as [E _].
  - repeat constructor; try (unfold len; simpl; lia); discriminate.
  - unfold len; simpl; lia.
  - reflexivity.
  - simpl; lia.
  - exact (f_equal fst E).
Defined.

(** C10, as the code has it.  When the transport hands back fewer bytes
    than the command table expects, [command] warns and returns the short
    buffer as it is; [verify] then reads [resp[1]] without a check of the
    length: the read is in bounds for an answer of at least 2 bytes and
    raises [IndexError] for a shorter one. *)
Theorem verify_reads_status_unguarded :
  (forall cmdname c payload timeout r rest att tr,
     COMMANDS !! cmdname = Some c ->
     len r < in_len c ->
     exists tr0,
       command cmdname payload timeout (mkWorld att (r :: rest) tr) =
       (Ok r,
        mkWorld att rest
          (tr ++ tr0 ++
           [Warn ("Device replied with shorter answer: "
                  +:+ str_int (len (c_command c ++ payload)) +:+ " vs "
                  +:+ str_int (in_len c))]))) /\
  (forall fuel r rest att tr,
     len r < 2 ->
     fst (verify (S fuel) (mkWorld att (r :: rest) tr)) = Raise IndexError) /\
  (forall r, 2 <= len r -> getitem r 1 = Ok (status_of r)).
Proof.
  split; [|split].
  - intros cmdname c payload timeout r rest att tr Hc Hshort.
    rewrite (command_ok _ _ _ _ _ _ _ _ Hc). unfold command_trace.
    destruct (Z.ltb_spec (len r) (in_len c)); [|lia].
    match goal with
    | |- context [?A ++ [?w; ?rd] ++ [Warn _]] => exists (A ++ [w; rd])
    end.
    rewrite <- app_assoc. reflexivity.
  - intros. apply verify_short. assumption.
  - apply getitem_status.
Qed.

Lemma verify_reads_status_unguarded_witness :
  fst (verify 1 (mkWorld true [[x40]] [])) = Raise IndexError /\
  getitem [x40; x07] 1 = Ok 7.
Proof.
  destruct verify_reads_status_unguarded as (_ & Hshort & Hok). split.
  - apply (Hshort O [x40] [] true []). unfold len; simpl; lia.
  - apply (Hok [x40; x07]). unfold len; simpl; lia.
Defined.

(** C10, as stated, fails on an answer of one byte: the read of the status
    byte is out of bounds and [verify] ends in [IndexError]. *)
Lemma verify_short_response_index_error :
  verify 1 (mkWorld true [[x40]] []) =
  (Raise IndexError,
   mkWorld true []
     [Print "Place finger on reader";
      BulkWrite 1 [x40; xff; x03] 5000;
      BulkRead 4 2 5000 [x40];
      Warn "Device replied with shorter answer: 3 vs 2"]).
Proof. reflexivity. Qed.

(** ** Finger info *)

Lemma get_finger_info_eq (fuel : nat) (finger_id : Z) :
  get_finger_info (S fuel) finger_id =
  (let* idb := lift (to_bytes1 finger_id) in
   let* resp := command "finger_info" idb 2000 in
   let* status := lift (getitem resp 1) in
   if status =? 0xff then
     print "Sensor is angry, verify a finger to calm it down" ;;
     verify fuel ;;
     get_finger_info fuel finger_id
   else if len resp =? 2 then
     raise (IOError ("Error: " +:+ str_opt (get_error status)))
   else ret resp).
Proof. reflexivity. Qed.

Lemma get_finger_info_step fuel id r rest att tr :
  0 <= id <= 255 -> 2 <= len r ->
  get_finger_info (S fuel) id (mkWorld att (r :: rest) tr) =
  let w1 := mkWorld att rest (tr ++ info_trace id r) in
  if status_of r =? 0xff then
    (print "Sensor is angry, verify a finger to calm it down" ;;
     verify fuel ;; get_finger_info fuel id) w1
  else (info_result r, w1).
Proof.
  intros Hid Hr. rewrite get_finger_info_eq.
  run_lift. rewrite (to_bytes1_ok _ Hid).
  run_command lookup_finger_info.
  run_lift. rewrite (getitem_status r Hr).
  cbv zeta. unfold info_trace, info_result.
  destruct (status_of r =? 255); [reflexivity|].
  destruct (len r =? 2); reflexivity.
Qed.

Lemma get_finger_info_final id fuel rec rest att tr :
  0 <= id <= 255 -> 2 <= len rec -> status_of rec <> 0xff ->
  get_finger_info (S fuel) id (mkWorld att (rec :: rest) tr) =
  (info_result rec, mkWorld att rest (tr ++ info_trace id rec)).
Proof.
  intros Hid Hr Hs. rewrite (get_finger_info_step _ _ _ _ _ _ Hid Hr).
  cbv zeta. destruct (Z.eqb_spec (status_of rec) 255); [contradiction|].
  reflexivity.
Qed.

(** A whole [verify]: the answers with an error meaning are asked for
    again, the first without one ends it. *)
Lemma verify_run hints r rest att tr fuel :
  Forall (fun h => 2 <= len h /\ get_error (status_of h) <> None) hints ->
  2 <= len r ->
  get_error (status_of r) = None ->
  (length hints < fuel)%nat ->
  verify fuel (mkWorld att (hints ++ r :: rest) tr) =
  (Ok (status_of r),
   mkWorld att rest (tr ++ verify_run_trace (hints ++ [r]))).
Proof.
  intros Hh Hr Hclean. revert tr fuel.
  induction Hh as [|h hints [Hlen Herr] Hh IH]; intros tr fuel Hfuel.
  - destruct fuel as [|fuel]; [cbn in Hfuel; lia|].
    cbn [app]. rewrite (verify_step _ _ _ _ _ Hr).
    rewrite Hclean. cbn [truthy]. unfold verify_run_trace.
    cbn [flat_map]. rewrite app_nil_r. reflexivity.
  - destruct fuel as [|fuel]; [cbn in Hfuel; lia|].
    cbn [app]. rewrite (verify_step _ _ _ _ _ Hlen).
    apply truthy_get_error in Herr. rewrite Herr.
    rewrite IH by (cbn in Hfuel; lia).
    unfold verify_run_trace. cbn [flat_map].
    rewrite <- app_assoc. reflexivity.
Qed.

Lemma writes_verify_run_trace rs :
  writes (verify_run_trace rs) =
  replicate (length rs) (1, [x40; xff; x03], 5000).
Proof.
  unfold verify_run_trace. induction rs as [|r rs IH]; [reflexivity|].
  cbn [flat_map length replicate].
  rewrite writes_app, writes_verify_trace, IH. reflexivity.
Qed.

Lemma get_finger_info_rounds id rounds fuel w_rest att tr :
  0 <= id <= 255 ->
  Forall angry_round rounds ->
  (length (flat_map round_script rounds) < fuel)%nat ->
  get_finger_info fuel id
    (mkWorld att (flat_map round_script rounds ++ w_rest) tr) =
  get_finger_info (fuel - length rounds) id
    (mkWorld att w_rest (tr ++ flat_map (round_trace id) rounds)) /\
  (0 < fuel - length rounds)%nat.
Proof.
  intros Hid Hr. revert tr fuel.
  induction Hr as [|[a hs v] rounds (Ha & Hs & Hh & Hv & Hc) Hr IH];
    intros tr fuel Hfuel.
  - cbn [length flat_map app]. rewrite app_nil_r, Nat.sub_0_r.
    split; [reflexivity|cbn in Hfuel; lia].
  - cbn [angry retried calm] in *.
    cbn [flat_map length] in *. unfold round_script at 1 in Hfuel.
    unfold round_script at 1. cbn [angry retried calm] in *.
    cbn [app length] in Hfuel.
    rewrite length_app, length_app in Hfuel. cbn [length] in Hfuel.
    destruct fuel as [|fuel]; [lia|].
    rewrite <- !app_assoc. cbn [app].
    rewrite (get_finger_info_step _ _ _ _ _ _ Hid Ha). cbv zeta.
    rewrite Hs. cbn [Z.eqb Pos.eqb].
    run_print. unfold bind at 1.
    rewrite <- app_assoc. cbn [app].
    rewrite (verify_run hs v _ _ _ fuel Hh Hv Hc) by lia.
    destruct (IH (((tr ++ info_trace id a) ++
                   [Print "Sensor is angry, verify a finger to calm it down"])
                  ++ verify_run_trace (hs ++ [v])) fuel) as [E Hpos]; [lia|].
    rewrite E. cbn [Nat.sub]. split; [|exact Hpos].
    unfold round_trace, angry_msg. cbn [angry retried calm].
    rewrite <- !app_assoc. reflexivity.
Qed.

Lemma str_opt_get_error (b : Z) :
  0 <= b <= 255 -> str_opt (get_error b) = status_text b.
Proof.
  intros Hb. unfold get_error, status_text.
  destruct (Z.eqb_spec (Z.land b 240) 0) as [E|E]; [reflexivity|].
  destruct (ERRORS !! b); [reflexivity|].
  cbn [str_opt]. apply hex_of_status; assumption.
Qed.

Lemma writes_info_trace id r :
  writes (info_trace id r) = [(1, [x40; xff; x12; byte_of id], 2000)].
Proof. unfold info_trace. rewrite writes_command_trace. reflexivity. Qed.

Lemma writes_round_trace id round :
  writes (round_trace id round) = round_writes id round.
Proof.
  unfold round_trace, round_writes.
  rewrite !writes_app, writes_info_trace, writes_verify_run_trace.
  rewrite length_app. cbn [length app writes omap list_omap write_of].
  replace (length (retried round) + 1)%nat with (S (length (retried round)))
    by lia.
  reflexivity.
Qed.

(** C5. [get_finger_info] sends [finger_info] with the one byte of the id.
    Each time byte 1 of the answer is 0xFF (whatever the length of that
    answer, 2 bytes included, since this test comes first) it runs a whole
    [verify], which itself asks again as long as the status it reads has an
    error meaning, and then sends [finger_info] again, for as many rounds as
    the sensor stays angry.  On the first answer whose byte 1 is not 0xFF it
    raises [IOError] with the text of the status (the entry of the error
    table, ["Unknown error 0x.."], or ["None"] for a status without error
    meaning) when that answer has exactly 2 bytes, and returns the answer as
    it is otherwise. *)
Theorem get_finger_info_recovery
  (finger_id : Z) (rounds : list calming) (rec : bytes)
  (rest : list bytes) (att : bool) (tr : list event) (fuel : nat) :
  0 <= finger_id <= 255 ->
  Forall angry_round rounds ->
  2 <= len rec ->
  status_of rec <> 0xff ->
  (length (flat_map round_script rounds) < fuel)%nat ->
  get_finger_info fuel finger_id
    (mkWorld att (flat_map round_script rounds ++ rec :: rest) tr) =
    ((if len rec =? 2
      then Raise (IOError ("Error: " +:+ status_text (status_of rec)))
      else Ok rec),
     mkWorld att rest
       (tr ++ flat_map (round_trace finger_id) rounds
           ++ info_trace finger_id rec)) /\
  writes (flat_map (round_trace finger_id) rounds
          ++ info_trace finger_id rec) =
    flat_map (round_writes finger_id) rounds
    ++ [(1, [x40; xff; x12; byte_of finger_id], 2000)].
Proof.
  intros Hid Hrounds Hrec Hs Hfuel. split.
  - destruct (get_finger_info_rounds finger_id rounds fuel (rec :: rest)
                att tr Hid Hrounds Hfuel) as [E Hpos].
    rewrite E.
    destruct (fuel - length rounds)%nat as [|fuel'] eqn:Ef; [lia|].
    rewrite (get_finger_info_final _ _ _ _ _ _ Hid Hrec Hs).
    unfold info_result.
    rewrite (str_opt_get_error _ (status_of_range rec)).
    rewrite <- app_assoc. reflexivity.
  - rewrite writes_app, writes_info_trace. f_equal.
    clear. induction rounds as [|round rounds IH]; [reflexivity|].
    cbn [flat_map]. rewrite writes_app, writes_round_trace, IH. reflexivity.
Qed.

Lemma get_finger_info_recovery_witness :
  let rec := [x40; x00; x01; x02] in
  get_finger_info 5 3
    (mkWorld true [[x40; xff]; [x40; x44]; [x40; x00]; rec] []) =
  (Ok rec,
   mkWorld true []
     [BulkWrite 1 [x40; xff; x12; x03] 2000;
      BulkRead 3 64 2000 [x40; xff];
      Warn "Device replied with shorter answer: 4 vs 64";
      Print "Sensor is angry, verify a finger to calm it down";
      Print "Place finger on reader";
      BulkWrite 1 [x40; xff; x03] 5000;
      BulkRead 4 2 5000 [x40; x44];
      Print "Move slightly to the left";
      Print "Place finger on reader";
      BulkWrite 1 [x40; xff; x03] 5000;
      BulkRead 4 2 5000 [x40; x00];
      Print "Recognized finger: 0";
      BulkWrite 1 [x40; xff; x12; x03] 2000;
      BulkRead 3 64 2000 rec;
      Warn "Device replied with shorter answer: 4 vs 64"]) /\
  fst (get_finger_info 1 3 (mkWorld true [[x40; xfd]] [])) =
    Raise (IOError "Error: Finger not enrolled") /\
  fst (get_finger_info 1 3 (mkWorld true [[x40; x03]] [])) =
    Raise (IOError "Error: None").
Proof.
  intros rec. split; [|split].
  - destruct (get_finger_info_recovery 3
                [mkCalming [x40; xff] [[x40; x44]] [x40; x00]] rec
                [] true [] 5) as [E _].
    + lia.
    + repeat constructor; try (unfold len; simpl; lia);
        try reflexivity; discriminate.
    + unfold len; simpl; lia.
    + discriminate.
    + simpl; lia.
    + exact E.
  - destruct (get_finger_info_recovery 3 [] [x40; xfd] [] true [] 1)
      as [E _].
    + lia.
    + constructor.
    + unfold len; simpl; lia.
    + discriminate.
    + simpl; lia.
    + exact (f_equal fst E).
  - destruct (get_finger_info_recovery 3 [] [x40; x03] [] true [] 1)
      as [E _].
    + lia.
    + constructor.
    + unfold len; simpl; lia.
    + discriminate.
    + simpl; lia.
    + exact (f_equal fst E).
Defined.

(** ** Delete *)

Lemma main_raise fuel a e pend tr pend' tr' :
  main_body fuel a (mkWorld true pend tr) =
    (Raise e, mkWorld true pend' tr') ->
  main fuel a (mkWorld true pend tr) =
  (Raise e, mkWorld true pend' (tr' ++ abort_trace)).
Proof.
  intros H. unfold main. cbn [attached negb]. rewrite H.
  unfold lookup_command. rewrite lookup_abort.
  unfold bind, print, bulkWrite, emit, ret, raise, abort_trace, abort_cmd.
  cbn [attached pending trace c_command]. rewrite <- app_assoc. reflexivity.
Qed.

Lemma delete_by_id_eq fuel fpid :
  delete_by_id fuel fpid =
  (let* resp := get_finger_info fuel fpid in
   let* payload := lift (marked_payload fpid (drop 2 resp)) in
   delete fuel fpid payload).
Proof. reflexivity. Qed.

(** C8. When the answer to [finger_info] is the 2-byte form with status
    0xFD, [delete_by_id] (here through [main]) fails with [IOError] carrying
    "Finger not enrolled"; the only writes are the [finger_info] command and
    the [abort] of the handler of [main]: no [delete] command is sent. *)
Theorem delete_by_id_not_enrolled
  (fpid : Z) (r : bytes) (rest : list bytes) (tr : list event) (fuel : nat) :
  0 <= fpid <= 255 ->
  len r = 2 ->
  status_of r = 0xfd ->
  (0 < fuel)%nat ->
  fst (delete_by_id fuel fpid (mkWorld true (r :: rest) tr)) =
    Raise (IOError "Error: Finger not enrolled") /\
  main fuel (ArgDelete fpid) (mkWorld true (r :: rest) tr) =
    (Raise (IOError "Error: Finger not enrolled"),
     mkWorld true rest (tr ++ info_trace fpid r ++ abort_trace)) /\
  writes (info_trace fpid r ++ abort_trace) =
    [(1, [x40; xff; x12; byte_of fpid], 2000); (1, [x40; xff; x02], 0)] /\
  ~ sends delete_cmd (info_trace fpid r ++ abort_trace).
Proof.
  intros Hid Hlen Hs Hfuel.
  assert (Hw : writes (info_trace fpid r ++ abort_trace) =
               [(1, [x40; xff; x12; byte_of fpid], 2000);
                (1, [x40; xff; x02], 0)]).
  { rewrite writes_app, writes_info_trace. reflexivity. }
  destruct fuel as [|fuel]; [lia|].
  assert (Hrun : delete_by_id (S fuel) fpid (mkWorld true (r :: rest) tr) =
                 (Raise (IOError "Error: Finger not enrolled"),
                  mkWorld true rest (tr ++ info_trace fpid r))).
  { rewrite delete_by_id_eq. unfold bind at 1.
    rewrite get_finger_info_final; [|lia|lia|rewrite Hs; discriminate].
    unfold info_result. rewrite Hlen, Hs. reflexivity. }
  split; [|split; [|split; [exact Hw|]]].
  - rewrite Hrun. reflexivity.
  - rewrite app_assoc. apply main_raise. exact Hrun.
  - intros (ep & data & t & Hin & Hpre). rewrite Hw in Hin.
    destruct Hin as [E|[E|[]]]; inversion E; subst data; discriminate Hpre.
Qed.

Lemma delete_by_id_not_enrolled_witness :
  main 1 (ArgDelete 5) (mkWorld true [[x40; xfd]] []) =
  (Raise (IOError "Error: Finger not enrolled"),
   mkWorld true [] ([] ++ info_trace 5 [x40; xfd] ++ abort_trace)).
Proof.
  apply (delete_by_id_not_enrolled 5 [x40; xfd] [] [] 1);
    first [lia | reflexivity].
Defined.

Lemma delete_step fuel fpid payload d rest att tr :
  2 <= len d ->
  delete fuel fpid payload (mkWorld att (d :: rest) tr) =
  let w1 := mkWorld att rest (tr ++ command_trace delete_cmd payload 2000 d) in
  if status_of d =? 0 then
    (print "Deleted, finger info:" ;;
     let* resp := get_finger_info fuel fpid in hexdump resp) w1
  else
    print ("Error: " +:+ str_opt (get_error (status_of d)) +:+ " ("
           +:+ hex (status_of d) +:+ ")") w1.
Proof.
  intros Hd. unfold delete.
  run_command lookup_delete.
  run_lift. rewrite (getitem_status d Hd).
  cbv zeta. destruct (status_of d =? 0); reflexivity.
Qed.





Lemma writes_slot_trace id s : writes (slot_trace id s) = slot_writes id s.
Proof.
  destruct s; cbn [slot_trace slot_writes]; unfold delete_trace;
    rewrite ?writes_app, ?writes_info_trace, ?writes_command_trace;
    reflexivity.
Qed.






(** ** Enroll *)

Lemma enroll_sampling_loop_eq fuel new_finger_id total_attempts attempts_done :
  enroll_sampling_loop (S fuel) new_finger_id total_attempts attempts_done =
  if attempts_done <? total_attempts then
    print ("Place finger on reader [" +:+ str_int (attempts_done + 1)
           +:+ "/" +:+ str_int total_attempts +:+ "]") ;;
    let* payload :=
      lift (struct_pack [new_finger_id; total_attempts; attempts_done; 0]) in
    let* resp := command "enroll" payload 10000 in
    let* status := lift (getitem resp 1) in
    let error := get_error status in
    if negb (status =? 0) then
      print ("Error: " +:+ str_opt error +:+ " (" +:+ hex status +:+ ")") ;;
      if status =? 0xdd then ret Returned
      else enroll_sampling_loop fuel new_finger_id total_attempts attempts_done
    else
      enroll_sampling_loop fuel new_finger_id total_attempts (attempts_done + 1)
  else ret Left.
Proof. reflexivity. Qed.

Lemma struct_pack_sample fid done :
  0 <= fid <= 255 -> 0 <= done <= 255 ->
  struct_pack [fid; 8; done; 0] = Ok (sample_payload fid done).
Proof.
  intros Hf Hd. cbn [struct_pack].
  rewrite (pack_B_ok fid Hf), (pack_B_ok done Hd). reflexivity.
Qed.

Lemma sampling_step fuel fid done r rest att tr :
  0 <= fid <= 255 -> 0 <= done < 8 -> 2 <= len r ->
  enroll_sampling_loop (S fuel) fid 8 done (mkWorld att (r :: rest) tr) =
  let w1 := mkWorld att rest (tr ++ sample_trace fid done r) in
  if status_of r =? 0 then enroll_sampling_loop fuel fid 8 (done + 1) w1
  else if status_of r =? 0xdd then (Ok Returned, w1)
  else enroll_sampling_loop fuel fid 8 done w1.
Proof.
  intros Hf Hd Hr. rewrite enroll_sampling_loop_eq.
  destruct (Z.ltb_spec done 8); [|lia].
  run_print. run_lift. rewrite struct_pack_sample by lia.
  run_command lookup_enroll.
  run_lift. rewrite (getitem_status r Hr).
  cbv zeta. unfold sample_trace.
  destruct (status_of r =? 0); cbn [negb].
  - rewrite app_nil_r, <- !app_assoc. reflexivity.
  - run_print. rewrite <- !app_assoc. cbn [app].
    destruct (status_of r =? 221); reflexivity.
Qed.

Lemma successes_nonneg rs : 0 <= successes rs.
Proof.
  induction rs as [|r rs IH]; cbn [successes]; [lia|].
  destruct (status_of r =? 0); lia.
Qed.

Lemma successes_snoc rs r :
  successes (rs ++ [r]) = successes rs + (if status_of r =? 0 then 1 else 0).
Proof.
  induction rs as [|x rs IH]; cbn [app successes]; [lia|]. rewrite IH. lia.
Qed.

(** Answers that neither complete the eighth sample nor abort keep the
    loop running, however many they are. *)
Lemma sampling_prefix fuel fid done rs rest att tr :
  0 <= fid <= 255 -> 0 <= done ->
  Forall (fun x => 2 <= len x /\ status_of x <> 0xdd) rs ->
  done + successes rs < 8 ->
  enroll_sampling_loop (length rs + fuel) fid 8 done
    (mkWorld att (rs ++ rest) tr) =
  enroll_sampling_loop fuel fid 8 (done + successes rs)
    (mkWorld att rest (tr ++ sampling_trace fid done rs)).
Proof.
  intros Hf Hd Hrs. revert done tr Hd.
  induction Hrs as [|r rs [Hr Hdd] Hrs IH]; intros done tr Hd Hs.
  - cbn [length Nat.add app successes sampling_trace].
    rewrite app_nil_r, Z.add_0_r. reflexivity.
  - cbn [length Nat.add app successes sampling_trace] in *.
    pose proof (successes_nonneg rs).
    rewrite sampling_step; [|lia| |lia].
    2:{ destruct (status_of r =? 0); lia. }
    cbv zeta. unfold next_attempt.
    destruct (Z.eqb_spec (status_of r) 0) as [E|E].
    + rewrite IH by lia. rewrite <- app_assoc.
      replace (done + 1 + successes rs) with (done + (1 + successes rs))
        by lia.
      reflexivity.
    + destruct (Z.eqb_spec (status_of r) 221); [contradiction|].
      rewrite IH by lia. rewrite <- app_assoc. reflexivity.
Qed.

Lemma sampling_trace_app fid done rs r :
  sampling_trace fid done (rs ++ [r]) =
  sampling_trace fid done rs ++ sample_trace fid (done + successes rs) r.
Proof.
  revert done. induction rs as [|x rs IH]; intros done.
  - cbn [app sampling_trace successes].
    rewrite app_nil_r, Z.add_0_r. reflexivity.
  - cbn [app sampling_trace successes]. rewrite IH, <- app_assoc.
    unfold next_attempt. destruct (status_of x =? 0).
    + replace (done + 1 + successes rs) with (done + (1 + successes rs))
        by lia.
      reflexivity.
    + reflexivity.
Qed.

Lemma writes_sample_trace fid done r :
  writes (sample_trace fid done r) =
  [(1, [x40; xff; x01] ++ sample_payload fid done, 10000)].
Proof.
  unfold sample_trace. rewrite !writes_app, writes_command_trace.
  destruct (negb _); reflexivity.
Qed.

Lemma writes_sampling_trace fid done rs :
  writes (sampling_trace fid done rs) = sampling_writes fid done rs.
Proof.
  revert done. induction rs as [|r rs IH]; intros done; [reflexivity|].
  cbn [sampling_trace sampling_writes].
  rewrite writes_app, writes_sample_trace, IH. reflexivity.
Qed.

Lemma sampling_run fid done rs r rest att tr fuel :
  0 <= fid <= 255 -> 0 <= done ->
  Forall (fun x => 2 <= len x /\ status_of x <> 0xdd) rs ->
  done + successes rs < 8 ->
  2 <= len r ->
  (length rs + 2 <= fuel)%nat ->
  enroll_sampling_loop fuel fid 8 done (mkWorld att (rs ++ r :: rest) tr) =
  let w' := mkWorld att rest (tr ++ sampling_trace fid done (rs ++ [r])) in
  if status_of r =? 0 then
    enroll_sampling_loop (fuel - length rs - 1) fid 8
      (done + successes rs + 1) w'
  else if status_of r =? 0xdd then (Ok Returned, w')
  else enroll_sampling_loop (fuel - length rs - 1) fid 8
         (done + successes rs) w'.
Proof.
  intros Hf Hd Hrs Hs Hr Hfuel.
  pose proof (successes_nonneg rs) as Hnn.
  replace fuel with (length rs + S (S (fuel - length rs - 2)))%nat at 1
    by lia.
  rewrite (sampling_prefix _ _ _ _ _ _ _ Hf Hd Hrs Hs).
  rewrite sampling_trace_app, app_assoc.
  rewrite sampling_step by (assumption || lia). cbv zeta.
  replace (fuel - length rs - 1)%nat with (S (fuel - length rs - 2)) by lia.
  reflexivity.
Qed.

Lemma enroll_precheck_loop_eq fuel :
  enroll_precheck_loop (S fuel) =
  (print "Place finger on reader" ;;
   let* resp := command "verify" [] 5000 in
   let* status := lift (getitem resp 1) in
   let error := get_error status in
   if negb (truthy error) then
     print ("Finger already enrolled: " +:+ str_int status) ;;
     enroll_precheck_loop fuel
   else if negb (status =? 0xfd) then
     print ("Error: " +:+ str_opt error) ;;
     enroll_precheck_loop fuel
   else print "Proceeding").
Proof. reflexivity. Qed.

(** [enroll] up to its sampling loop, when the count query answers without
    error and the first [verify] reports a finger that is not enrolled. *)
Lemma enroll_head fuel user_data num pre rest att tr :
  2 <= len num -> get_error (status_of num) = None ->
  2 <= len pre -> status_of pre = 0xfd ->
  enroll (S fuel) user_data (mkWorld att (num :: pre :: rest) tr) =
  (let* e := enroll_sampling_loop (S fuel) (status_of num) 8 0 in
   match e with
   | Returned => ret tt
   | Left =>
       let* resp := command "after_enroll" [] 2000 in
       print ("Whatever this means: " +:+ bytes_hex resp) ;;
       print "Committing enrolled finger" ;;
       let* payload := lift (marked_payload (status_of num) user_data) in
       let* resp := command "commit" payload 2000 in
       let* status := lift (getitem resp 1) in
       if status =? 0 then print "Enroll successful 🎉"
       else print ("Sensor is angry: " +:+ bytes_hex resp)
   end) (mkWorld att rest (tr ++ enroll_head_trace num pre)).
Proof.
  intros Hnum Hclean Hpre Hfd. unfold enroll.
  run_command lookup_enrolled_num.
  run_lift. rewrite (getitem_status num Hnum).
  cbv zeta. rewrite Hclean. cbn [truthy].
  run_print. unfold bind at 1. rewrite enroll_precheck_loop_eq.
  run_print. run_command lookup_verify.
  run_lift. rewrite (getitem_status pre Hpre).
  cbv zeta. rewrite Hfd.
  replace (truthy (get_error 253)) with true by (vm_compute; reflexivity).
  cbn [negb Z.eqb Pos.eqb].
  unfold print at 1, emit. cbn [attached pending trace].
  unfold enroll_head_trace. rewrite <- !app_assoc. reflexivity.
Qed.

(** C3. The sampling loop of [enroll] sends the [enroll] command with the
    payload [finger_id, 8, attempts_done, 0] and a timeout of 10 s.  A
    status 0 counts the sample; any other status but 0xDD leaves the attempt
    index where it is and the loop asks again, for as many answers as come
    ([sampling_writes] follows these words).  With [rs] such answers that
    leave fewer than eight samples counted, the next answer [r] ends the
    loop when it is the eighth success (the loop is left and [enroll] goes
    on) or when its status is 0xDD: then the loop returns at once and, in
    [enroll], nothing is sent after it. *)
Theorem enroll_sampling_loop_run
  (fid done : Z) (rs : list bytes) (r : bytes) (rest : list bytes)
  (att : bool) (tr : list event) (fuel : nat) :
  0 <= fid <= 255 ->
  0 <= done ->
  Forall (fun x => 2 <= len x /\ status_of x <> 0xdd) rs ->
  done + successes rs < 8 ->
  2 <= len r ->
  (length rs + 2 <= fuel)%nat ->
  let w := mkWorld att (rs ++ r :: rest) tr in
  let w' := mkWorld att rest (tr ++ sampling_trace fid done (rs ++ [r])) in
  (status_of r = 0xdd ->
   enroll_sampling_loop fuel fid 8 done w = (Ok Returned, w')) /\
  (status_of r = 0 -> done + successes rs = 7 ->
   enroll_sampling_loop fuel fid 8 done w = (Ok Left, w')) /\
  (status_of r <> 0xdd -> done + successes (rs ++ [r]) < 8 ->
   enroll_sampling_loop fuel fid 8 done w =
   enroll_sampling_loop (fuel - length rs - 1) fid 8
     (done + successes (rs ++ [r])) w') /\
  writes (sampling_trace fid done (rs ++ [r])) =
    sampling_writes fid done (rs ++ [r]) /\
  (status_of r = 0xdd -> done = 0 ->
   forall user_data num pre,
     2 <= len num -> status_of num = fid -> get_error fid = None ->
     2 <= len pre -> status_of pre = 0xfd ->
     enroll fuel user_data (mkWorld att (num :: pre :: rs ++ r :: rest) tr) =
     (Ok tt,
      mkWorld att rest
        (tr ++ enroll_head_trace num pre
            ++ sampling_trace fid 0 (rs ++ [r])))).
Proof.
  intros Hf Hd Hrs Hs Hr Hfuel w w'. unfold w, w'.
  pose proof (successes_nonneg rs) as Hnn.
  pose proof (sampling_run fid done rs r rest att tr fuel Hf Hd Hrs Hs Hr Hfuel)
    as Hrun. cbv zeta in Hrun.
  split; [|split; [|split; [|split]]].
  - intros E. rewrite Hrun, E. reflexivity.
  - intros E E7. rewrite Hrun, E. cbn [Z.eqb].
    replace (fuel - length rs - 1)%nat with (S (fuel - length rs - 2)) by lia.
    rewrite enroll_sampling_loop_eq.
    destruct (Z.ltb_spec (done + successes rs + 1) 8); [lia|]. reflexivity.
  - intros E Hlt. rewrite Hrun. rewrite successes_snoc in *.
    destruct (Z.eqb_spec (status_of r) 0).
    + rewrite Z.add_assoc. reflexivity.
    + destruct (Z.eqb_spec (status_of r) 221); [contradiction|].
      rewrite Z.add_0_r. reflexivity.
  - apply writes_sampling_trace.
  - intros E E0 user_data num pre Hnum Hfid Hclean Hpre Hfd. subst done.
    destruct fuel as [|fuel]; [lia|].
    rewrite <- Hfid in Hclean.
    rewrite (enroll_head _ _ _ _ _ _ _ Hnum Hclean Hpre Hfd).
    unfold bind at 1. rewrite Hfid.
    rewrite (sampling_run fid 0 rs r rest att _ (S fuel) Hf Hd Hrs Hs Hr Hfuel).
    cbv zeta. rewrite E. cbn [Z.eqb Pos.eqb].
    unfold ret. rewrite <- app_assoc. reflexivity.
Qed.

Lemma enroll_sampling_loop_run_witness :
  let ok := [x40; x00] in
  fst (enroll_sampling_loop 4 2 8 0
         (mkWorld true [ok; [x40; x41]; [x40; xdd]] [])) = Ok Returned /\
  writes (sampling_trace 2 0 [ok; [x40; x41]; [x40; xdd]]) =
    [(1, [x40; xff; x01; x02; x08; x00; x00], 10000);
     (1, [x40; xff; x01; x02; x08; x01; x00], 10000);
     (1, [x40; xff; x01; x02; x08; x01; x00], 10000)] /\
  fst (enroll_sampling_loop 9 2 8 0
         (mkWorld true (replicate 8 ok) [])) = Ok Left.
Proof.
  intros ok. split; [|split].
  - destruct (enroll_sampling_loop_run 2 0 [ok; [x40; x41]] [x40; xdd]
                [] true [] 4) as (Hdd & _).
    + lia.
    + lia.
    + repeat constructor; try (unfold len; simpl; lia); discriminate.
    + simpl; lia.
    + unfold len; simpl; lia.
    + simpl; lia.
    + exact (f_equal fst (Hdd eq_refl)).
  - destruct (enroll_sampling_loop_run 2 0 [ok; [x40; x41]] [x40; xdd]
                [] true [] 4) as (_ & _ & _ & W & _).
    + lia.
    + lia.
    + repeat constructor; try (unfold len; simpl; lia); discriminate.
    + simpl; lia.
    + unfold len; simpl; lia.
    + simpl; lia.
    + exact W.
  - destruct (enroll_sampling_loop_run 2 0 (replicate 7 ok) ok
                [] true [] 9) as (_ & Hleft & _).
    + lia.
    + lia.
    + repeat constructor; try (unfold len; simpl; lia); discriminate.
    + simpl; lia.
    + unfold len; simpl; lia.
    + simpl; lia.
    + exact (f_equal fst (Hleft eq_refl eq_refl)).
Defined.

(** ** The image pipeline *)

Lemma for_each_app {St} (l1 l2 : list Z) (body : Z -> St -> outcome St)
  (s : St) :
  for_each (l1 ++ l2) body s = obind (for_each l1 body s) (for_each l2 body).
Proof.
  revert s. induction l1 as [|i l1 IH]; intros s; [reflexivity|].
  cbn [app for_each].
  destruct (body i s) as [s'| |]; cbn [obind]; [apply IH|reflexivity..].
Qed.

Lemma for_each_ext {St} (l : list Z) (b1 b2 : Z -> St -> outcome St) (s : St) :
  Forall (fun i => forall s', b1 i s' = b2 i s') l ->
  for_each l b1 s = for_each l b2 s.
Proof.
  intros H. revert s. induction H as [|i l Hi H IH]; intros s; [reflexivity|].
  cbn [for_each]. rewrite Hi.
  destruct (b2 i s); cbn [obind]; [apply IH|reflexivity..].
Qed.

Lemma for_each_fmap {St} (f : Z -> Z) (l : list Z)
  (body : Z -> St -> outcome St) (s : St) :
  for_each (f <$> l) body s = for_each l (fun i => body (f i)) s.
Proof.
  revert s. induction l as [|i l IH]; intros s; [reflexivity|].
  cbn [fmap list_fmap for_each].
  destruct (body (f i) s); cbn [obind]; [apply IH|reflexivity..].
Qed.

(** The two nested loops over rows and columns visit the pixels in
    row-major order. *)
Lemma for_each_rows {St} (width : Z) (h : nat)
  (body : Z -> Z -> St -> outcome St) (s : St) :
  0 < width ->
  for_each (range 0 (Z.of_nat h))
    (fun y => for_each (range 0 width) (fun x => body x y)) s =
  for_each (range 0 (Z.of_nat h * width))
    (fun k => body (k mod width) (k / width)) s.
Proof.
  intros Hw. unfold range. rewrite !Z.sub_0_r. revert s.
  induction h as [|h IH]; intros s; [reflexivity|].
  rewrite seqZ_S. rewrite for_each_app, IH.
  replace (Z.of_nat (S h) * width) with (Z.of_nat h * width + width) by lia.
  rewrite seqZ_app by lia. rewrite for_each_app.
  destruct (for_each (seqZ 0 (Z.of_nat h * width)) _ s) as [s'| |];
    cbn [obind]; [|reflexivity..].
  cbn [for_each].
  replace (seqZ (0 + Z.of_nat h * width) width)
    with (Z.add (Z.of_nat h * width) <$> seqZ 0 width)
    by (rewrite fmap_add_seqZ; f_equal; lia).
  rewrite for_each_fmap.
  destruct (for_each (seqZ 0 width) (fun x => body x (0 + Z.of_nat h)) s')
    eqn:E.
  all: cbn [obind]; rewrite <- E; apply for_each_ext.
  all: apply Forall_seqZ; intros x Hx s''.
  all: rewrite Z.add_0_l, (Z.add_comm (Z.of_nat h * width) x),
         Z_mod_plus_full, Z_div_plus_full by lia.
  all: rewrite Z.mod_small, Z.div_small by lia; reflexivity.
Qed.

Lemma lookup_middle_len {A} (l1 l2 : list A) (v : A) :
  (l1 ++ v :: l2) !! Z.to_nat (len l1) = Some v.
Proof.
  unfold len. rewrite Nat2Z.id. apply list_lookup_middle. reflexivity.
Qed.

Lemma int_truediv_scale minv maxv v :
  maxv - minv <> 0 ->
  int_truediv ((v - minv) * 256) (maxv - minv) = Ok (scale minv maxv v).
Proof.
  intros H. unfold int_truediv, scale.
  destruct (Z.eqb_spec (maxv - minv) 0); [contradiction|reflexivity].
Qed.

Lemma putpixel_flat d width height k p :
  im_width d = width -> im_height d = height ->
  0 < width -> 0 <= k < width * height ->
  putpixel d (k mod width) (k / width) p =
  Ok (mkImage width height (<[Z.to_nat k := clip8 p]> (im_data d))).
Proof.
  intros Hw Hh Hwp Hk. unfold putpixel, in_image. rewrite Hw, Hh.
  pose proof (Z.mod_pos_bound k width Hwp).
  assert (0 <= k / width) by (apply Z.div_pos; lia).
  assert (k / width < height) by (apply Z.div_lt_upper_bound; lia).
  destruct (Z.leb_spec 0 (k mod width)); [|lia].
  destruct (Z.ltb_spec (k mod width) width); [|lia].
  destruct (Z.leb_spec 0 (k / width)); [|lia].
  destruct (Z.ltb_spec (k / width) height); [|lia].
  cbn [andb].
  replace (k / width * width + k mod width) with k
    by (rewrite (Z.div_mod k width) at 1; lia).
  reflexivity.
Qed.

Section Frame.

(** A captured frame that fills its size. *)
Variables (img : image) (width height : Z).
Hypothesis Hwf : well_formed img width height.

Lemma getpixel_flat k :
  0 <= k < width * height ->
  getpixel img (k mod width) (k / width) =
  match im_data img !! Z.to_nat k with
  | Some v => Ok v
  | None => Raise IndexError
  end.
Proof.
  destruct Hwf as (Hw & Hh & Hwp & Hhp & Hlen). intros Hk.
  unfold getpixel, in_image. rewrite Hw, Hh.
  pose proof (Z.mod_pos_bound k width Hwp).
  assert (0 <= k / width) by (apply Z.div_pos; lia).
  assert (k / width < height) by (apply Z.div_lt_upper_bound; lia).
  destruct (Z.leb_spec 0 (k mod width)); [|lia].
  destruct (Z.ltb_spec (k mod width) width); [|lia].
  destruct (Z.leb_spec 0 (k / width)); [|lia].
  destruct (Z.ltb_spec (k / width) height); [|lia].
  cbn [andb].
  replace (k / width * width + k mod width) with k
    by (rewrite (Z.div_mod k width) at 1; lia).
  reflexivity.
Qed.

Lemma minmax_loop (l2 l1 : list Z) (mm : Z * Z) :
  im_data img = l1 ++ l2 ->
  for_each (seqZ (len l1) (len l2))
    (fun k => (fun x y '(minv, maxv) =>
       obind (getpixel img x y) (fun v => Ok (Z.min minv v, Z.max v maxv)))
       (k mod width) (k / width)) mm =
  Ok (foldl minmax_step mm l2).
Proof.
  revert l1 mm.
  induction l2 as [|v l2 IH]; intros l1 mm Hdata; [reflexivity|].
  assert (Hlen : len (im_data img) = width * height) by apply Hwf.
  rewrite Hdata, len_app in Hlen. unfold len in *. cbn [length] in *.
  rewrite seqZ_cons by lia. cbn [for_each foldl].
  rewrite getpixel_flat by lia.
  rewrite Hdata. pose proof (lookup_middle_len l1 l2 v) as E.
  unfold len in E. rewrite E. destruct mm as [mn mx]. cbn [obind].
  replace (Z.succ (Z.of_nat (length l1)))
    with (Z.of_nat (length (l1 ++ [v])))
    by (rewrite length_app; cbn [length]; lia).
  replace (Z.pred (Z.of_nat (S (length l2)))) with (Z.of_nat (length l2))
    by lia.
  rewrite (IH (l1 ++ [v])); [reflexivity|].
  rewrite <- app_assoc. exact Hdata.
Qed.

(** The first pair of loops folds [min] and [max] over the samples. *)
Lemma minmax_fold :
  minmax img width height =
  Ok (foldl minmax_step (65536, 0) (im_data img)).
Proof.
  destruct Hwf as (Hw & Hh & Hwp & Hhp & Hlen).
  unfold minmax.
  replace height with (Z.of_nat (Z.to_nat height)) at 1 by lia.
  rewrite (for_each_rows width (Z.to_nat height)
             (fun x y '(minv, maxv) =>
                obind (getpixel img x y)
                  (fun v => Ok (Z.min minv v, Z.max v maxv))))
    by assumption.
  unfold range. rewrite Z.sub_0_r.
  replace (Z.of_nat (Z.to_nat height) * width) with (len (im_data img))
    by lia.
  apply (minmax_loop (im_data img) []). reflexivity.
Qed.

Lemma to_8bit_loop minv maxv (l2 l1 : list Z) (d : image) :
  maxv - minv <> 0 ->
  im_data img = l1 ++ l2 ->
  im_width d = width -> im_height d = height ->
  im_data d = (pixel minv maxv <$> l1) ++ replicate (length l2) 0 ->
  for_each (seqZ (len l1) (len l2))
    (fun k => (fun x y img_8b =>
       obind (getpixel img x y) (fun v =>
       obind (int_truediv ((v - minv) * 256) (maxv - minv)) (fun p =>
       putpixel img_8b x y p)))
       (k mod width) (k / width)) d =
  Ok (mkImage width height (pixel minv maxv <$> l1 ++ l2)).
Proof.
  intros Hdiff. revert l1 d.
  induction l2 as [|v l2 IH]; intros l1 d Hdata Hw Hh Hd.
  - cbn [length replicate] in Hd. rewrite app_nil_r in *.
    cbn [len length seqZ for_each]. destruct d as [dw dh dd].
    cbn in *. subst. reflexivity.
  - assert (Hlen : len (im_data img) = width * height) by apply Hwf.
    assert (Hwp : 0 < width) by apply Hwf.
    rewrite Hdata, len_app in Hlen. unfold len in *. cbn [length] in *.
    rewrite seqZ_cons by lia. cbn [for_each].
    rewrite getpixel_flat by lia.
    rewrite Hdata. pose proof (lookup_middle_len l1 l2 v) as E.
    unfold len in E. rewrite E. cbn [obind].
    rewrite (int_truediv_scale minv maxv v Hdiff). cbn [obind].
    rewrite (putpixel_flat d width height) by (assumption || lia).
    cbn [obind]. fold (pixel minv maxv v).
    replace (Z.succ (Z.of_nat (length l1)))
      with (Z.of_nat (length (l1 ++ [v])))
      by (rewrite length_app; cbn [length]; lia).
    replace (Z.pred (Z.of_nat (S (length l2)))) with (Z.of_nat (length l2))
      by lia.
    rewrite (IH (l1 ++ [v])).
    + rewrite <- app_assoc. reflexivity.
    + rewrite <- app_assoc. exact Hdata.
    + reflexivity.
    + reflexivity.
    + cbn [im_data]. rewrite Hd, Nat2Z.id.
      rewrite insert_app_r_alt by (rewrite length_fmap; lia).
      rewrite length_fmap, Nat.sub_diag. cbn [replicate].
      rewrite fmap_app, <- app_assoc. reflexivity.
Qed.

(** The second pair of loops maps [pixel] over the samples. *)
Lemma to_8bit_map minv maxv :
  maxv - minv <> 0 ->
  to_8bit img width height minv maxv =
  Ok (mkImage width height (pixel minv maxv <$> im_data img)).
Proof.
  intros Hdiff. destruct Hwf as (Hw & Hh & Hwp & Hhp & Hlen).
  unfold to_8bit. cbv zeta.
  replace height with (Z.of_nat (Z.to_nat height)) at 1 by lia.
  rewrite (for_each_rows width (Z.to_nat height)
             (fun x y img_8b =>
                obind (getpixel img x y) (fun v =>
                obind (int_truediv ((v - minv) * 256) (maxv - minv))
                  (fun p => putpixel img_8b x y p))))
    by assumption.
  unfold range. rewrite Z.sub_0_r.
  replace (Z.of_nat (Z.to_nat height) * width) with (len (im_data img))
    by lia.
  apply (to_8bit_loop minv maxv (im_data img) []);
    try reflexivity; try assumption.
  cbn [new_image im_data fmap list_fmap app]. f_equal.
  unfold len in Hlen. lia.
Qed.

(** With no range between minimum and maximum the first pixel of the
    conversion divides by zero. *)
Lemma to_8bit_flat m :
  to_8bit img width height m m = Raise ZeroDivisionError.
Proof.
  destruct Hwf as (Hw & Hh & Hwp & Hhp & Hlen).
  unfold to_8bit. cbv zeta.
  replace height with (Z.of_nat (Z.to_nat height)) at 1 by lia.
  rewrite (for_each_rows width (Z.to_nat height)
             (fun x y img_8b =>
                obind (getpixel img x y) (fun v =>
                obind (int_truediv ((v - m) * 256) (m - m))
                  (fun p => putpixel img_8b x y p))))
    by assumption.
  unfold range. rewrite Z.sub_0_r.
  rewrite seqZ_cons by lia. cbn [for_each].
  rewrite getpixel_flat by lia.
  destruct (im_data img) as [|v data] eqn:E.
  - unfold len in Hlen. cbn [length] in Hlen. lia.
  - cbn. unfold int_truediv. rewrite Z.sub_diag. reflexivity.
Qed.

End Frame.

Lemma minmax_step_bounds (l : list Z) (mm : Z * Z) :
  fst (foldl minmax_step mm l) <= fst mm /\
  snd mm <= snd (foldl minmax_step mm l) /\
  Forall (fun v => fst (foldl minmax_step mm l) <= v
                   <= snd (foldl minmax_step mm l)) l.
Proof.
  revert mm. induction l as [|v l IH]; intros mm.
  - cbn [foldl]. repeat split; [lia|lia|constructor].
  - cbn [foldl]. destruct (IH (minmax_step mm v)) as (Hmin & Hmax & Hall).
    change (fst (minmax_step mm v)) with (Z.min (fst mm) v) in Hmin.
    change (snd (minmax_step mm v)) with (Z.max v (snd mm)) in Hmax.
    repeat split; [lia|lia|]. constructor; [lia|exact Hall].
Qed.

Lemma scale_floor minv maxv v :
  minv <= v -> minv < maxv ->
  scale minv maxv v = (v - minv) * 256 / (maxv - minv).
Proof.
  intros Hv Hlt. unfold scale. apply Z.quot_div_nonneg; lia.
Qed.

Lemma scale_range minv maxv v :
  minv <= v <= maxv -> minv < maxv ->
  0 <= (v - minv) * 256 / (maxv - minv) <= 256 /\
  (v < maxv -> (v - minv) * 256 / (maxv - minv) <= 255).
Proof.
  intros Hv Hlt. repeat split.
  - apply Z.div_pos; lia.
  - apply Z.div_le_upper_bound; nia.
  - intros Hvm.
    assert ((v - minv) * 256 / (maxv - minv) < 256); [|lia].
    apply Z.div_lt_upper_bound; nia.
Qed.

(** The clip leaves a value of [0 .. 255] as it is and takes 256 to 255. *)
Lemma pixel_min minv maxv v :
  minv <= v <= maxv -> minv < maxv ->
  pixel minv maxv v = Z.min 255 ((v - minv) * 256 / (maxv - minv)).
Proof.
  intros Hv Hlt. unfold pixel, clip8. rewrite scale_floor by lia.
  destruct (scale_range minv maxv v Hv Hlt) as [[H0 _] _].
  destruct (Z.leb_spec ((v - minv) * 256 / (maxv - minv)) 0); [lia|].
  destruct (Z.ltb_spec ((v - minv) * 256 / (maxv - minv)) 256); lia.
Qed.

Lemma pixel_map minv maxv (l : list Z) :
  minv < maxv -> Forall (fun v => minv <= v <= maxv) l ->
  pixel minv maxv <$> l =
  (fun v => Z.min 255 ((v - minv) * 256 / (maxv - minv))) <$> l.
Proof.
  intros Hlt Hall.
  apply list_eq_Forall2, Forall2_fmap, Forall_Forall2_diag.
  eapply Forall_impl; [exact Hall|].
  intros v Hv. cbn beta in *. apply pixel_min; assumption.
Qed.

(** [int_truediv] against binary64 division: the two agree on every frame
    range up to 64, and on the extreme and the worked ranges of 16-bit
    samples. *)
Lemma int_truediv_binary64 :
  Forall (fun d =>
    Forall (fun v => truediv64 (v * 256) d = Some (Z.quot (v * 256) d))
      (seqZ 0 (d + 1))) (seqZ 1 64) /\
  Forall (fun d =>
    Forall (fun v => truediv64 (v * 256) d = Some (Z.quot (v * 256) d))
      [0; 1; 2; 3; 100; 500; d / 2; d - 2; d - 1; d])
    [999; 1000; 32768; 40000; 65534; 65535].
Proof.
  split; apply (bool_decide_unpack _); vm_compute; exact I.
Qed.

(** C6.  When the minimum and the maximum of the samples are equal, the
    conversion to 8 bits divides by zero: it raises [ZeroDivisionError],
    which the handler of [main] reports with an [abort] command and lets
    through; no image is saved. *)
Theorem capture_flat_frame_divides_by_zero :
  (forall img width height m,
     well_formed img width height ->
     minmax img width height = Ok (m, m) ->
     to_8bit img width height m m = Raise ZeroDivisionError) /\
  main 1 (ArgCapture "out.png")
    (mkWorld true
       [[x02; x00; x01; x00];
        [x64; x00; x64; x00; x64; x00; x64; x00; x64; x00; x64; x00]] []) =
  (Raise ZeroDivisionError,
   mkWorld true []
     [BulkWrite 1 [x00; x0c] 2000;
      BulkRead 3 4 2000 [x02; x00; x01; x00];
      BulkWrite 1 [x00; x09] 5000;
      BulkRead 2 12 5000
        [x64; x00; x64; x00; x64; x00; x64; x00; x64; x00; x64; x00];
      Print "Aborting";
      BulkWrite 1 [x40; xff; x02] 0]).
Proof.
  split.
  - intros img width height m Hwf _. apply to_8bit_flat. exact Hwf.
  - reflexivity.
Qed.

Lemma capture_flat_frame_divides_by_zero_witness :
  to_8bit (mkImage 3 2 (replicate 6 100)) 3 2 100 100 =
  Raise ZeroDivisionError.
Proof.
  destruct capture_flat_frame_divides_by_zero as [H _].
  apply H.
  - unfold well_formed, len. simpl. lia.
  - reflexivity.
Defined.

(** C7, as the code has it.  For a frame with [min < max], the pixel that
    the conversion stores for a sample [v] is the integer part of
    [(v - min) * 256 / (max - min)], clamped to [0, 255]: the quotient is
    cut, not rounded, and the 8-bit image clips what it is handed.  Every
    sample lies between the minimum and the maximum; below the maximum the
    integer part is itself within [0, 255], so that the clamp acts on the
    maximal sample only, whose 256 is stored as 255. *)
Theorem to_8bit_truncates (img : image) (width height minv maxv : Z) :
  well_formed img width height ->
  minmax img width height = Ok (minv, maxv) ->
  minv < maxv ->
  to_8bit img width height minv maxv =
    Ok (mkImage width height
          ((fun v => Z.min 255 ((v - minv) * 256 / (maxv - minv)))
             <$> im_data img)) /\
  Forall (fun v => minv <= v <= maxv /\
                   0 <= Z.min 255 ((v - minv) * 256 / (maxv - minv)) <= 255 /\
                   (v < maxv ->
                    0 <= (v - minv) * 256 / (maxv - minv) <= 255) /\
                   (v = maxv ->
                    (v - minv) * 256 / (maxv - minv) = 256 /\
                    Z.min 255 ((v - minv) * 256 / (maxv - minv)) = 255))
    (im_data img).
Proof.
  intros Hwf Hmm Hlt.
  rewrite (minmax_fold img width height Hwf) in Hmm.
  destruct (minmax_step_bounds (im_data img) (65536, 0)) as (_ & _ & Hall).
  injection Hmm as Hmm. rewrite Hmm in Hall. cbn [fst snd] in Hall.
  split.
  - rewrite (to_8bit_map img width height Hwf) by lia.
    do 2 f_equal. apply pixel_map; assumption.
  - eapply Forall_impl; [exact Hall|].
    intros v Hv. cbn beta in *. split; [exact Hv|].
    destruct (scale_range minv maxv v Hv Hlt) as [[H0 H256] H255].
    split; [lia|]. split.
    + intros Hvm. split; [exact H0|apply H255; exact Hvm].
    + intros ->.
      assert (E : (maxv - minv) * 256 / (maxv - minv) = 256).
      { rewrite Z.mul_comm. apply Z.div_mul. lia. }
      rewrite E. split; reflexivity.
Qed.

Lemma to_8bit_truncates_witness :
  to_8bit (mkImage 3 2 [0; 1000; 500; 3; 100; 999]) 3 2 0 1000 =
  Ok (mkImage 3 2
        ((fun v => Z.min 255 ((v - 0) * 256 / (1000 - 0)))
           <$> [0; 1000; 500; 3; 100; 999]))
  /\ Z.min 255 ((500 - 0) * 256 / (1000 - 0)) = 128
  /\ Z.min 255 ((1000 - 0) * 256 / (1000 - 0)) = 255.
Proof.
  destruct (to_8bit_truncates (mkImage 3 2 [0; 1000; 500; 3; 100; 999])
              3 2 0 1000) as [E _].
  - unfold well_formed, len. simpl. lia.
  - reflexivity.
  - lia.
  - split; [exact E|split; reflexivity].
Defined.

(** C7, as stated, fails on a 3 x 2 frame with minimum 0 and maximum 1000:
    the sample 3 gives 0 where rounding 0.768 gives 1, and the sample 100
    gives 25 where rounding 25.6 gives 26.  Binary64 division gives the
    same quotients as [int_truediv] here; the 256 of the maximal sample is
    stored as 255. *)
Lemma to_8bit_does_not_round :
  let img := mkImage 3 2 [0; 1000; 500; 3; 100; 100] in
  minmax img 3 2 = Ok (0, 1000) /\
  to_8bit img 3 2 0 1000 = Ok (mkImage 3 2 [0; 255; 128; 0; 25; 25]) /\
  claimed_pixel 0 1000 <$> im_data img = [0; 255; 128; 1; 26; 26] /\
  (fun v => truediv64 ((v - 0) * 256) (1000 - 0)) <$> im_data img =
    [Some 0; Some 256; Some 128; Some 0; Some 25; Some 25].
Proof. repeat split; vm_compute; reflexivity. Qed.

(** ** Further properties *)

(** X1.  A command name that is not in [COMMANDS] makes [command] raise
    [KeyError] before anything is written or read: the world is left as it
    was. *)
Theorem command_unknown_name (cmdname : string) (payload : bytes)
  (timeout : Z) (w : world) :
  COMMANDS !! cmdname = None ->
  command cmdname payload timeout w = (Raise (KeyError cmdname), w).
Proof.
  intros H. unfold command, lookup_command. rewrite H. reflexivity.
Qed.

Lemma command_unknown_name_witness :
  command "identify" [x01] 2000 (mkWorld true [[x40; x00]] []) =
  (Raise (KeyError "identify"), mkWorld true [[x40; x00]] []).
Proof. apply command_unknown_name. reflexivity. Defined.

(** X2.  On a sensor that answers, [command] for a known name writes one
    frame, the opcode followed by the payload, to the output endpoint of the
    command, reads once from its input endpoint asking for [in_len] bytes,
    both with the timeout given, and returns the answer as it came.  A frame
    of the wrong size or a short answer only warn: there is no warning
    exactly when the frame has [out_len] bytes and the answer at least
    [in_len]. *)
Theorem command_exchange (cmdname : string) (c : Command) (payload : bytes)
  (timeout : Z) (r : bytes) (rest : list bytes) (att : bool)
  (tr : list event) :
  COMMANDS !! cmdname = Some c ->
  exists tr',
    command cmdname payload timeout (mkWorld att (r :: rest) tr) =
      (Ok r, mkWorld att rest (tr ++ tr')) /\
    writes tr' = [(ep_out c, c_command c ++ payload, timeout)] /\
    reads tr' = [(ep_in c, in_len c, timeout, r)] /\
    (warnings tr' = [] <->
     len (c_command c ++ payload) = out_len c /\ in_len c <= len r).
Proof.
  intros Hc. exists (command_trace c payload timeout r).
  split; [apply command_ok; exact Hc|].
  split; [apply writes_command_trace|].
  unfold command_trace.
  destruct (Z.eqb_spec (len (c_command c ++ payload)) (out_len c)) as [E|E];
    destruct (Z.ltb_spec (len r) (in_len c)) as [L|L]; cbn.
  all: split; [reflexivity|].
  all: split; [intros H; try discriminate H; split; lia|intros [H1 H2]; first [reflexivity | lia | contradiction]].
Qed.

Lemma command_exchange_witness :
  fst (command "verify" [] 5000 (mkWorld true [[x40; x07; x00]] [])) =
  Ok [x40; x07; x00].
Proof.
  destruct (command_exchange "verify" verify_cmd [] 5000 [x40; x07; x00] [] true [])
    as (tr' & E & _); [reflexivity|].
  exact (f_equal fst E).
Defined.

(** X3.  On a sensor that stays silent, [command] raises a USB error after
    the frame has been written: the write is in the trace, no read is. *)
Theorem command_silent_sensor (cmdname : string) (c : Command)
  (payload : bytes) (timeout : Z) (att : bool) (tr : list event) :
  COMMANDS !! cmdname = Some c ->
  exists tr',
    command cmdname payload timeout (mkWorld att [] tr) =
      (Raise USBError, mkWorld att [] (tr ++ tr')) /\
    writes tr' = [(ep_out c, c_command c ++ payload, timeout)] /\
    reads tr' = [].
Proof.
  intros Hc. unfold command, lookup_command. rewrite Hc.
  unfold bind, ret, warn, bulkWrite, bulkRead, emit;
    cbn [attached pending trace].
  destruct (negb _); cbn [attached pending trace]; eexists;
    (split; [rewrite <- ?app_assoc; reflexivity|split; reflexivity]).
Qed.

Lemma command_silent_sensor_witness :
  fst (command "abort" [] 2000 (mkWorld true [] [])) = Raise USBError.
Proof.
  destruct (command_silent_sensor "abort" abort_cmd [] 2000 true [])
    as (tr' & E & _); [reflexivity|].
  exact (f_equal fst E).
Defined.

Lemma lookup_after_enroll : COMMANDS !! "after_enroll" = Some after_enroll_cmd.
Proof. reflexivity. Qed.

Lemma lookup_commit : COMMANDS !! "commit" = Some commit_cmd.
Proof. reflexivity. Qed.

Lemma struct_pack_len vs p : struct_pack vs = Ok p -> length p = length vs.
Proof.
  revert p. induction vs as [|v vs IH]; intros p H; cbn [struct_pack] in H.
  - injection H as <-. reflexivity.
  - destruct (pack_B v); try discriminate.
    destruct (struct_pack vs) as [bs| |]; try discriminate.
    injection H as <-. cbn [length]. f_equal. apply IH. reflexivity.
Qed.

Lemma marked_payload_len id data p :
  marked_payload id data = Ok p -> len data <= 68 -> len p = 69.
Proof.
  unfold marked_payload. intros H Hlen.
  destruct (struct_pack [Z.lor 240 (id + 5)]) as [m| |] eqn:E; try discriminate.
  injection H as <-. apply struct_pack_len in E. apply len_ljust.
  rewrite len_app. unfold len in *. rewrite E. cbn [length]. lia.
Qed.

Lemma to_bytes1_len v p : to_bytes1 v = Ok p -> len p = 1.
Proof.
  unfold to_bytes1. intros H. destruct (v <? 0); try discriminate.
  destruct (Byte.of_N _); try discriminate. injection H as <-. reflexivity.
Qed.

Lemma fitting_step_refl w : fitting_step w w.
Proof. exists []. rewrite app_nil_r. split; [reflexivity|constructor]. Qed.

Lemma fitting_step_trans w1 w2 w3 :
  fitting_step w1 w2 -> fitting_step w2 w3 -> fitting_step w1 w3.
Proof.
  intros (t1 & T1 & F1) (t2 & T2 & F2). exists (t1 ++ t2).
  rewrite T2, T1, <- app_assoc. split; [reflexivity|].
  apply Forall_app. split; assumption.
Qed.

Lemma fitting_lift {A} (R : A -> Prop) (o : outcome A) :
  (forall a, o = Ok a -> R a) -> fitting R (lift o).
Proof.
  intros H w Hw. split; [exact Hw|]. split; [apply fitting_step_refl|exact H].
Qed.

Lemma fitting_ret {A} (R : A -> Prop) (a : A) : R a -> fitting R (ret a).
Proof.
  intros H. apply (fitting_lift R (Ok a)). intros a' E. injection E as <-.
  exact H.
Qed.

Lemma fitting_raise {A} (R : A -> Prop) (e : exn) : fitting R (raise e).
Proof. apply (fitting_lift R (Raise e)). discriminate. Qed.

Lemma fitting_out_of_fuel {A} (R : A -> Prop) : fitting R (@out_of_fuel A).
Proof. apply (fitting_lift R OutOfFuel). discriminate. Qed.

Lemma fitting_emit (R : unit -> Prop) (e : event) :
  fits e -> R tt -> fitting R (emit e).
Proof.
  intros He HR w Hw. split; [exact Hw|]. split.
  - exists [e]. split; [reflexivity|]. repeat constructor. exact He.
  - intros []. intros _. exact HR.
Qed.

Lemma fitting_print (R : unit -> Prop) (msg : string) :
  R tt -> fitting R (print msg).
Proof. intros HR. apply fitting_emit; [exact I|exact HR]. Qed.

Lemma fitting_bulkRead ep length timeout :
  fitting (fun r => len r <= 70) (bulkRead ep length timeout).
Proof.
  intros [att pend tr] Hw. unfold answers_within, bulkRead in *.
  cbn [pending attached trace] in *.
  destruct pend as [|r rest]; cbn [fst snd pending trace].
  - split; [exact Hw|]. split; [apply fitting_step_refl|discriminate].
  - apply Forall_cons in Hw as [Hr Hrest]. split; [exact Hrest|]. split.
    + eexists. split; [reflexivity|]. repeat constructor.
    + intros a E. injection E as <-. exact Hr.
Qed.

Lemma fitting_bind {A B} (R1 : A -> Prop) (R : B -> Prop) (m : M A)
  (k : A -> M B) :
  fitting R1 m -> (forall a, R1 a -> fitting R (k a)) -> fitting R (bind m k).
Proof.
  intros Hm Hk w Hw. unfold bind. destruct (Hm w Hw) as (P & G & O).
  destruct (m w) as [[a|e|] w1]; cbn [fst snd] in *.
  - destruct (Hk a (O a eq_refl) w1 P) as (P' & G' & O').
    split; [exact P'|]. split; [|exact O'].
    eapply fitting_step_trans; eassumption.
  - split; [exact P|]. split; [exact G|discriminate].
  - split; [exact P|]. split; [exact G|discriminate].
Qed.

Lemma fitting_weaken {A} (R R' : A -> Prop) (m : M A) :
  (forall a, R a -> R' a) -> fitting R m -> fitting R' m.
Proof.
  intros HR Hm w Hw. destruct (Hm w Hw) as (P & G & O).
  split; [exact P|]. split; [exact G|]. intros a E. apply HR, O, E.
Qed.

(** A call of [command] with a frame of the stated size adds the write of
    that frame, the read, and at most the warning for a short answer. *)
Lemma fitting_command (cmdname : string) (c : Command) payload timeout :
  COMMANDS !! cmdname = Some c ->
  len (c_command c ++ payload) = out_len c ->
  fitting (fun r => len r <= 70) (command cmdname payload timeout).
Proof.
  intros Hc Hlen. unfold command, lookup_command. rewrite Hc.
  apply (fitting_bind (fun c' => c' = c)); [apply fitting_ret; reflexivity|].
  intros c' ->. cbv zeta. rewrite Hlen, Z.eqb_refl. cbn [negb].
  apply (fitting_bind (fun _ => True)); [apply fitting_ret; exact I|].
  intros _ _. apply (fitting_bind (fun _ => True)).
  { apply fitting_emit; [|exact I].
    exists cmdname, c, payload. repeat split; assumption. }
  intros _ _. apply (fitting_bind (fun r => len r <= 70));
    [apply fitting_bulkRead|].
  intros resp Hresp. apply (fitting_bind (fun _ => True)).
  { destruct (len resp <? in_len c); [|apply fitting_ret; exact I].
    apply fitting_emit; [|exact I]. exists cmdname, c.
    split; [exact Hc|reflexivity]. }
  intros _ _. apply fitting_ret. exact Hresp.
Qed.

Ltac fit_print :=
  apply (fitting_bind (fun _ => True)); [apply fitting_print; exact I|];
  intros _ _.

Ltac fit_status resp :=
  apply (fitting_bind (fun _ : Z => True));
  [apply fitting_lift; intros; exact I|]; intros ? _; cbv zeta.

Lemma verify_fits (fuel : nat) : fitting (fun _ => True) (verify fuel).
Proof.
  induction fuel as [|fuel IH]; [apply fitting_out_of_fuel|].
  rewrite verify_eq. fit_print.
  apply (fitting_bind (fun r => len r <= 70));
    [apply (fitting_command "verify" verify_cmd); reflexivity|].
  intros resp _. fit_status resp.
  destruct (truthy _); fit_print; [exact IH|apply fitting_ret; exact I].
Qed.

Lemma get_finger_info_fits (fuel : nat) (finger_id : Z) :
  fitting (fun rec => len rec <= 70) (get_finger_info fuel finger_id).
Proof.
  induction fuel as [|fuel IH]; [apply fitting_out_of_fuel|].
  rewrite get_finger_info_eq.
  apply (fitting_bind (fun idb => len idb = 1)).
  { apply fitting_lift. intros idb H. exact (to_bytes1_len _ _ H). }
  intros idb Hidb. apply (fitting_bind (fun r => len r <= 70)).
  { apply (fitting_command "finger_info" finger_info_cmd); [reflexivity|].
    rewrite len_app, Hidb. reflexivity. }
  intros resp Hresp. fit_status resp.
  destruct (_ =? 255).
  - fit_print. apply (fitting_bind (fun _ => True)); [apply verify_fits|].
    intros _ _. exact IH.
  - destruct (len resp =? 2); [apply fitting_raise|].
    apply fitting_ret. exact Hresp.
Qed.

Lemma delete_fits (fuel : nat) (fpid : Z) (payload : bytes) :
  len payload = 69 -> fitting (fun _ => True) (delete fuel fpid payload).
Proof.
  intros Hp. unfold delete.
  apply (fitting_bind (fun r => len r <= 70)).
  { apply (fitting_command "delete" delete_cmd); [reflexivity|].
    rewrite len_app, Hp. reflexivity. }
  intros resp _. fit_status resp.
  destruct (negb _); [apply fitting_print; exact I|].
  fit_print. apply (fitting_bind (fun _ => True)).
  { eapply fitting_weaken; [|apply get_finger_info_fits]. intros; exact I. }
  intros rec _. apply fitting_emit; exact I.
Qed.

Lemma marked_record_fits (fuel : nat) (fpid : Z) (rec : bytes) :
  len rec <= 70 ->
  fitting (fun _ => True)
    (let* payload := lift (marked_payload fpid (drop 2 rec)) in
     delete fuel fpid payload).
Proof.
  intros Hrec. apply (fitting_bind (fun p => len p = 69)).
  { apply fitting_lift. intros p Hp.
    apply (marked_payload_len _ _ _ Hp).
    unfold len in *. rewrite length_drop. lia. }
  intros p Hp. apply delete_fits. exact Hp.
Qed.

Lemma delete_by_id_fits (fuel : nat) (fpid : Z) :
  fitting (fun _ => True) (delete_by_id fuel fpid).
Proof.
  rewrite delete_by_id_eq.
  apply (fitting_bind (fun rec => len rec <= 70));
    [apply get_finger_info_fits|].
  intros rec Hrec. apply marked_record_fits. exact Hrec.
Qed.

Lemma delete_all_body_fits (fuel : nat) (finger_id : Z) :
  fitting (fun _ => True) (delete_all_body fuel finger_id).
Proof.
  unfold delete_all_body.
  apply (fitting_bind (fun rec => len rec <= 70));
    [apply get_finger_info_fits|].
  intros rec Hrec. fit_status rec.
  destruct (_ =? 255); [apply fitting_print; exact I|].
  apply marked_record_fits. exact Hrec.
Qed.

Lemma enroll_precheck_fits (fuel : nat) :
  fitting (fun _ => True) (enroll_precheck_loop fuel).
Proof.
  induction fuel as [|fuel IH]; [apply fitting_out_of_fuel|].
  rewrite enroll_precheck_loop_eq. fit_print.
  apply (fitting_bind (fun r => len r <= 70));
    [apply (fitting_command "verify" verify_cmd); reflexivity|].
  intros resp _. fit_status resp.
  destruct (negb (truthy _)); [fit_print; exact IH|].
  destruct (negb _); [fit_print; exact IH|apply fitting_print; exact I].
Qed.

Lemma enroll_sampling_fits (fuel : nat) (fid total done : Z) :
  fitting (fun _ => True) (enroll_sampling_loop fuel fid total done).
Proof.
  revert done. induction fuel as [|fuel IH]; intros done;
    [apply fitting_out_of_fuel|].
  rewrite enroll_sampling_loop_eq.
  destruct (done <? total); [|apply fitting_ret; exact I].
  fit_print. apply (fitting_bind (fun p => len p = 4)).
  { apply fitting_lift. intros p Hp. apply struct_pack_len in Hp.
    unfold len. rewrite Hp. reflexivity. }
  intros payload Hp. apply (fitting_bind (fun r => len r <= 70)).
  { apply (fitting_command "enroll" enroll_cmd); [reflexivity|].
    rewrite len_app, Hp. reflexivity. }
  intros resp _. fit_status resp.
  destruct (negb _); [|apply IH].
  fit_print. destruct (_ =? 221); [apply fitting_ret; exact I|apply IH].
Qed.

Lemma enroll_fits (fuel : nat) (user_data : bytes) :
  len user_data <= 68 -> fitting (fun _ => True) (enroll fuel user_data).
Proof.
  intros Hud. unfold enroll.
  apply (fitting_bind (fun r => len r <= 70));
    [apply (fitting_command "enrolled_num" enrolled_num_cmd); reflexivity|].
  intros resp _. fit_status resp.
  destruct (truthy _); [apply fitting_print; exact I|].
  fit_print.
  apply (fitting_bind (fun _ => True)); [apply enroll_precheck_fits|].
  intros _ _.
  apply (fitting_bind (fun _ => True)); [apply enroll_sampling_fits|].
  intros [] _; [|apply fitting_ret; exact I].
  apply (fitting_bind (fun r => len r <= 70));
    [apply (fitting_command "after_enroll" after_enroll_cmd); reflexivity|].
  intros resp' _. fit_print. fit_print.
  apply (fitting_bind (fun p => len p = 69)).
  { apply fitting_lift. intros p Hp.
    exact (marked_payload_len _ _ _ Hp Hud). }
  intros payload Hp. apply (fitting_bind (fun r => len r <= 70)).
  { apply (fitting_command "commit" commit_cmd); [reflexivity|].
    rewrite len_app, Hp. reflexivity. }
  intros resp'' _. fit_status resp''.
  destruct (_ =? 0); apply fitting_print; exact I.
Qed.

(** X4.  Every frame that the workflows hand to [command] has the size that
    the command table states.  From a world whose scripted answers have at
    most 70 bytes (the longest read asks for 64), whatever the sensor
    answers and however the run ends, every bulk write of [verify],
    [get_finger_info], [delete_by_id], the body of the [delete_all] loop
    and [enroll] (with user data of at most 68 bytes) is a frame of a
    command of the table, on its output endpoint and of exactly its
    [out_len] bytes, and every warning is the one for a short answer:
    [command] never warns of a wrong command size in these runs. *)
Theorem workflow_frames_fit (fuel : nat) (w : world) :
  answers_within 70 w ->
  fitting_step w (snd (verify fuel w)) /\
  (forall finger_id,
     fitting_step w (snd (get_finger_info fuel finger_id w))) /\
  (forall fpid, fitting_step w (snd (delete_by_id fuel fpid w))) /\
  (forall finger_id,
     fitting_step w (snd (delete_all_body fuel finger_id w))) /\
  (forall user_data, len user_data <= 68 ->
     fitting_step w (snd (enroll fuel user_data w))) /\
  (forall e a b,
     fits e -> e <> Warn ("Wrong command size: " +:+ a +:+ " vs " +:+ b)).
Proof.
  intros Hw. split; [apply (verify_fits fuel w Hw)|].
  split; [intros id; apply (get_finger_info_fits fuel id w Hw)|].
  split; [intros id; apply (delete_by_id_fits fuel id w Hw)|].
  split; [intros id; apply (delete_all_body_fits fuel id w Hw)|].
  split;
    [intros ud Hud; apply (enroll_fits fuel ud Hud w Hw)|].
  intros e a b He ->. destruct He as (name & c & _ & E). discriminate E.
Qed.

Lemma workflow_frames_fit_witness :
  let w := mkWorld true [[x40; x00; x01; x02]; [x40; x00]; [x40; xfd]] [] in
  exists tr',
    trace (snd (delete_by_id 1 3 w)) = trace w ++ tr' /\ Forall fits tr'.
Proof.
  intros w. destruct (workflow_frames_fit 1 w) as (_ & _ & H & _).
  - unfold answers_within, w. cbn [pending].
    repeat constructor; unfold len; simpl; lia.
  - exact (H 3).
Defined.

Lemma clean_status_small (b : Z) :
  get_error b = None -> 0 <= b <= 255 -> b <= 15.
Proof.
  intros Hnone Hb. unfold get_error in Hnone.
  destruct (Z.eqb_spec (Z.land b 240) 0) as [E|E].
  - clear Hnone. revert b Hb E.
    assert (HF : Forall (fun b => Z.land b 240 = 0 -> b <= 15) (seqZ 0 256)).
    { apply (bool_decide_unpack _). vm_compute. exact I. }
    intros b Hb. apply (Forall_seqZ_range _ 0 256 HF). lia.
  - destruct (ERRORS !! b); discriminate.
Qed.

Lemma truthy_false_clean (b : Z) :
  truthy (get_error b) = false -> get_error b = None.
Proof.
  intros T. destruct (get_error b) eqn:G; [|reflexivity].
  assert (truthy (get_error b) = true) as T'.
  { apply truthy_get_error. rewrite G. discriminate. }
  rewrite G in T'. congruence.
Qed.

(** X5.  For every [int], the test [if error] on the result of [get_error]
    is the test against [None] (no description is empty), which is the test
    of the high nibble; a byte without error meaning is at most 15. *)
Theorem get_error_truth_value (byte : Z) :
  (truthy (get_error byte) = true <-> get_error byte <> None) /\
  (get_error byte <> None <-> Z.land byte 0xF0 <> 0) /\
  (get_error byte = None -> 0 <= byte <= 255 -> byte <= 15).
Proof.
  split; [apply truthy_get_error|]. split.
  - unfold get_error. destruct (Z.eqb_spec (Z.land byte 240) 0) as [E|E].
    + split; [congruence|]. intros H. contradiction.
    + split; [intros _; exact E|]. intros _.
      destruct (ERRORS !! byte); discriminate.
  - apply clean_status_small.
Qed.

Lemma get_error_truth_value_witness : 9 <= 15.
Proof.
  destruct (get_error_truth_value 9) as (_ & _ & H).
  apply H; [reflexivity|lia].
Defined.

Lemma marker_value (id : Z) :
  0 <= id <= 15 ->
  Z.lor 0xf0 (id + 5) = if id <=? 10 then 0xf5 + id else id - 11 + 0xf0.
Proof.
  intros H. revert id H.
  assert (HF : Forall (fun id => Z.lor 0xf0 (id + 5) =
                 if id <=? 10 then 0xf5 + id else id - 11 + 0xf0) (seqZ 0 16)).
  { apply (bool_decide_unpack _). vm_compute. exact I. }
  intros id H. apply (Forall_seqZ_range _ 0 16 HF). lia.
Qed.

Lemma getitem_head (b : byte) (l : bytes) :
  getitem (b :: l) 0 = Ok (int_of_byte b).
Proof.
  unfold getitem. destruct (Z.ltb_spec 0 (len (b :: l))) as [L|L].
  - reflexivity.
  - unfold len in L. cbn [length] in L. lia.
Qed.

(** X6.  For the ids 0 to 15, all that [enroll] can get from a count without
    error meaning, the first byte of the payload is 0xF5 + id up to id 10
    and 0xF0 + (id - 11) from 11 on, so that two payloads with the same
    first byte are for the same id. *)
Theorem marker_identifies_slot (id1 id2 : Z) (data1 data2 p1 p2 : bytes) :
  0 <= id1 <= 15 -> 0 <= id2 <= 15 ->
  marked_payload id1 data1 = Ok p1 ->
  marked_payload id2 data2 = Ok p2 ->
  (getitem p1 0 = Ok (if id1 <=? 10 then 0xf5 + id1 else id1 - 11 + 0xf0)) /\
  (getitem p1 0 = getitem p2 0 -> id1 = id2).
Proof.
  intros H1 H2 E1 E2.
  rewrite marked_payload_ok in E1, E2 by lia.
  injection E1 as <-. injection E2 as <-.
  assert (G : forall id data, 0 <= id <= 15 ->
            getitem (ljust (byte_of (Z.lor 240 (id + 5)) :: data) 69 x00) 0 =
            Ok (Z.lor 240 (id + 5))).
  { intros id data H. unfold ljust. cbn [app]. rewrite getitem_head.
    rewrite int_of_byte_of; [reflexivity|].
    pose proof (marker_range id). lia. }
  rewrite !G by assumption. rewrite !marker_value by assumption.
  split; [reflexivity|]. intros E. injection E as E.
  destruct (Z.leb_spec id1 10); destruct (Z.leb_spec id2 10); lia.
Qed.

Lemma marker_identifies_slot_witness :
  getitem (xf8 :: replicate 68 x00) 0 = Ok 0xf8.
Proof.
  destruct (marker_identifies_slot 3 4 [] [] (xf8 :: replicate 68 x00)
              (xf9 :: replicate 68 x00)) as [E _];
    first [lia | reflexivity | exact E].
Defined.

Lemma grows_refl Wr w : grows Wr w w.
Proof.
  split; [reflexivity|]. split; [exists O; reflexivity|].
  exists []. rewrite app_nil_r. split; [reflexivity|constructor].
Qed.

Lemma grows_trans Wr w1 w2 w3 :
  grows Wr w1 w2 -> grows Wr w2 w3 -> grows Wr w1 w3.
Proof.
  intros (A1 & [k1 P1] & t1 & T1 & F1) (A2 & [k2 P2] & t2 & T2 & F2).
  split; [congruence|]. split.
  - exists (k1 + k2)%nat. rewrite P2, P1. apply drop_drop.
  - exists (t1 ++ t2). rewrite T2, T1, <- app_assoc. split; [reflexivity|].
    rewrite writes_app. apply Forall_app. split; assumption.
Qed.

Section Confined.

Context {E : exn -> Prop} {Wr : Z * bytes * Z -> Prop}.

Lemma confined_ret {A} (R : A -> Prop) (a : A) :
  R a -> confined E Wr R (ret a).
Proof. intros H w. split; [apply grows_refl|exact H]. Qed.

Lemma confined_raise {A} (R : A -> Prop) (e : exn) :
  E e -> confined E Wr R (raise e).
Proof. intros H w. split; [apply grows_refl|exact H]. Qed.

Lemma confined_out_of_fuel {A} (R : A -> Prop) :
  confined E Wr R (@out_of_fuel A).
Proof. intros w. split; [apply grows_refl|exact I]. Qed.

Lemma confined_lift {A} (R : A -> Prop) (o : outcome A) :
  outcome_ok E R o -> confined E Wr R (lift o).
Proof. intros H w. split; [apply grows_refl|exact H]. Qed.

Lemma confined_emit (R : unit -> Prop) (e : event) :
  match write_of e with Some wr => Wr wr | None => True end ->
  R tt -> confined E Wr R (emit e).
Proof.
  intros He HR w. split; [|exact HR].
  split; [reflexivity|]. split; [exists O; reflexivity|].
  exists [e]. split; [reflexivity|]. unfold writes. cbn [omap list_omap].
  destruct (write_of e); repeat constructor. exact He.
Qed.

Lemma confined_print (R : unit -> Prop) (msg : string) :
  R tt -> confined E Wr R (print msg).
Proof. intros HR. apply confined_emit; [exact I|exact HR]. Qed.

Lemma confined_bulkRead (R : bytes -> Prop) ep length timeout :
  E USBError -> (forall r, R r) -> confined E Wr R (bulkRead ep length timeout).
Proof.
  intros HE HR [att pend tr]. unfold bulkRead. cbn [pending attached trace].
  destruct pend as [|r rest]; cbn [fst snd].
  - split; [apply grows_refl|exact HE].
  - split; [|apply HR]. split; [reflexivity|]. split; [exists 1%nat; reflexivity|].
    eexists. split; [reflexivity|]. constructor.
Qed.

Lemma confined_bind {A B} (R1 : A -> Prop) (R : B -> Prop) (m : M A)
  (k : A -> M B) :
  confined E Wr R1 m ->
  (forall a, R1 a -> confined E Wr R (k a)) ->
  confined E Wr R (bind m k).
Proof.
  intros Hm Hk w. unfold bind. destruct (Hm w) as [G O].
  destruct (m w) as [[a|e|] w1]; cbn [fst snd] in *.
  - destruct (Hk a O w1) as [G' O']. split; [|exact O'].
    eapply grows_trans; eassumption.
  - split; assumption.
  - split; [assumption|exact I].
Qed.

Lemma confined_command (cmdname : string) (c : Command) payload timeout :
  COMMANDS !! cmdname = Some c ->
  Wr (ep_out c, c_command c ++ payload, timeout) ->
  E USBError ->
  confined E Wr (fun _ => True) (command cmdname payload timeout).
Proof.
  intros Hc HW HE. unfold command, lookup_command. rewrite Hc.
  apply (confined_bind (fun c' => c' = c)); [apply confined_ret; reflexivity|].
  intros c' ->.
  apply (confined_bind (fun _ => True)).
  { destruct (negb _); [apply confined_emit|apply confined_ret]; exact I. }
  intros _ _. apply (confined_bind (fun _ => True)).
  { apply confined_emit; [exact HW|exact I]. }
  intros _ _. apply (confined_bind (fun _ => True)).
  { apply confined_bulkRead; [exact HE|intros; exact I]. }
  intros resp _. apply (confined_bind (fun _ => True)).
  { destruct (len resp <? in_len c); [apply confined_emit|apply confined_ret]; exact I. }
  intros _ _. apply confined_ret. exact I.
Qed.

End Confined.

Lemma confined_weaken {A} (E E' : exn -> Prop) (Wr Wr' : Z * bytes * Z -> Prop)
  (R R' : A -> Prop) (m : M A) :
  (forall e, E e -> E' e) -> (forall wr, Wr wr -> Wr' wr) ->
  (forall a, R a -> R' a) ->
  confined E Wr R m -> confined E' Wr' R' m.
Proof.
  intros HE HW HR Hm w. destruct (Hm w) as [(A1 & P1 & t & T & F) O]. split.
  - split; [exact A1|]. split; [exact P1|]. exists t. split; [exact T|].
    eapply Forall_impl; [exact F|exact HW].
  - destruct (fst (m w)); cbn in *; auto.
Qed.

Lemma getitem_outcome (b : bytes) (i : Z) :
  outcome_ok (fun e => e = IndexError)
    (fun v => 0 <= v <= 255 /\ getitem b i = Ok v) (getitem b i).
Proof.
  unfold getitem.
  destruct ((0 <=? i) && (i <? len b)).
  - destruct (b !! Z.to_nat i); cbn; [|reflexivity].
    split; [apply int_of_byte_range|reflexivity].
  - destruct ((i <? 0) && (- len b <=? i)); [|reflexivity].
    destruct (b !! Z.to_nat (len b + i)); cbn; [|reflexivity].
    split; [apply int_of_byte_range|reflexivity].
Qed.

Lemma getitem_1_inv (b : bytes) (v : Z) :
  getitem b 1 = Ok v -> 2 <= len b /\ status_of b = v.
Proof.
  intros H. destruct (Z_lt_le_dec (len b) 2) as [L|L].
  - rewrite getitem_short in H by assumption. discriminate.
  - rewrite getitem_status in H by assumption. injection H as <-. split; [lia|reflexivity].
Qed.

(** Reading [resp[1]]: the value is a byte, or [IndexError] leaves. *)
Ltac read_status resp side :=
  apply (confined_bind (fun v => 0 <= v <= 255 /\ getitem resp 1 = Ok v));
  [ apply confined_lift;
    let Hg := fresh "Hg" in
    pose proof (getitem_outcome resp 1) as Hg;
    destruct (getitem resp 1);
    [exact Hg | side; exact Hg | exact I]
  | ].

Lemma verify_within (fuel : nat) :
  confined transport_or_index (fun wr => wr = verify_write)
    (fun finger => get_error finger = None /\ 0 <= finger <= 15)
    (verify fuel).
Proof.
  induction fuel as [|fuel IH]; [apply confined_out_of_fuel|].
  rewrite verify_eq.
  apply (confined_bind (fun _ => True)); [apply confined_print; exact I|].
  intros _ _. apply (confined_bind (fun _ => True)).
  { apply (confined_command "verify" verify_cmd); [reflexivity|reflexivity|left; reflexivity]. }
  intros resp _.
  read_status resp ltac:(right).
  intros status [Hrange _]. cbv zeta.
  destruct (truthy (get_error status)) eqn:T.
  - apply (confined_bind (fun _ => True)); [apply confined_print; exact I|].
    intros _ _. exact IH.
  - apply (confined_bind (fun _ => True)); [apply confined_print; exact I|].
    intros _ _. apply confined_ret.
    assert (N : get_error status = None).
    { destruct (get_error status) eqn:G; [|reflexivity].
      assert (truthy (get_error status) = true) as T'.
      { apply truthy_get_error. rewrite G. discriminate. }
      rewrite G in T'. congruence. }
    split; [exact N|]. split; [lia|].
    apply clean_status_small; assumption.
Qed.

Lemma to_bytes1_bad v : ~ 0 <= v <= 255 -> to_bytes1 v = Raise OverflowError.
Proof.
  intros H. unfold to_bytes1. destruct (Z.ltb_spec v 0); [reflexivity|].
  destruct (Byte.of_N (Z.to_N v)) as [b|] eqn:E; [|reflexivity].
  apply Byte.to_of_N in E. pose proof (Byte.to_N_bounded b). lia.
Qed.

(** X7.  From any world and with any fuel, [verify] raises nothing but a USB
    error or [IndexError], writes nothing but [verify] frames with a timeout
    of 5 s, takes its answers from the front of the script and, when it
    returns, returns a value without error meaning, between 0 and 15.  With
    more fuel than answers pending it never stops for want of fuel. *)
Theorem verify_confined (fuel : nat) :
  confined transport_or_index (fun wr => wr = verify_write)
    (fun finger => get_error finger = None /\ 0 <= finger <= 15)
    (verify fuel) /\
  (forall w, (length (pending w) < fuel)%nat ->
             fst (verify fuel w) <> OutOfFuel).
Proof. split; [apply verify_within|apply verify_fuel_enough]. Qed.

Lemma verify_confined_witness :
  fst (verify 2 (mkWorld true [[x40; x41]] [])) <> OutOfFuel.
Proof.
  destruct (verify_confined 2) as [_ H].
  apply (H (mkWorld true [[x40; x41]] [])). simpl. lia.
Defined.

Lemma get_finger_info_within (fuel : nat) (finger_id : Z) :
  confined (info_exn finger_id) (info_io finger_id)
    (fun rec => 3 <= len rec /\ status_of rec <> 0xff /\
                0 <= finger_id <= 255)
    (get_finger_info fuel finger_id).
Proof.
  induction fuel as [|fuel IH]; [apply confined_out_of_fuel|].
  rewrite get_finger_info_eq.
  apply (confined_bind (fun idb => idb = [byte_of finger_id] /\
                                   0 <= finger_id <= 255)).
  { apply confined_lift.
    destruct (Z_le_dec 0 finger_id) as [L|L];
      [destruct (Z_le_dec finger_id 255) as [U|U]|].
    - rewrite to_bytes1_ok by lia. cbn. split; [reflexivity|lia].
    - rewrite to_bytes1_bad by lia. cbn. right; right; right. split; [reflexivity|lia].
    - rewrite to_bytes1_bad by lia. cbn. right; right; right. split; [reflexivity|lia]. }
  intros idb [-> Hid]. apply (confined_bind (fun _ => True)).
  { apply (confined_command "finger_info" finger_info_cmd);
      [reflexivity|right; reflexivity|left; reflexivity]. }
  intros resp _.
  read_status resp ltac:(right; left).
  intros status [_ Hget]. apply getitem_1_inv in Hget as [Hlen Hst].
  destruct (Z.eqb_spec status 255) as [E|E].
  - apply (confined_bind (fun _ => True)); [apply confined_print; exact I|].
    intros _ _. apply (confined_bind (fun _ => True)); [|intros _ _; exact IH].
    eapply confined_weaken; [| | |apply verify_within].
    + intros e [->| ->]; [left|right; left]; reflexivity.
    + intros wr ->. left. reflexivity.
    + intros; exact I.
  - destruct (Z.eqb_spec (len resp) 2) as [L|L].
    + apply confined_raise. right; right; left. eexists. reflexivity.
    + apply confined_ret. split; [lia|]. split; [congruence|exact Hid].
Qed.

(** X8.  From any world, [get_finger_info] raises only a USB error,
    [IndexError], [IOError], or [OverflowError] when the id is no byte; it
    writes only [finger_info] frames for this id and [verify] frames; a
    record it returns has at least 3 bytes and a status byte other than
    0xFF, so that reading [rec[-1]] is in bounds. *)
Theorem get_finger_info_confined (fuel : nat) (finger_id : Z) :
  confined (info_exn finger_id) (info_io finger_id)
    (fun rec => 3 <= len rec /\ status_of rec <> 0xff /\
                0 <= finger_id <= 255)
    (get_finger_info fuel finger_id) /\
  (forall w rec,
     fst (get_finger_info fuel finger_id w) = Ok rec ->
     getitem rec (-1) = Ok (last_of rec)).
Proof.
  split; [apply get_finger_info_within|].
  intros w rec H. destruct (get_finger_info_within fuel finger_id w) as [_ O].
  rewrite H in O. destruct O as (Hlen & _ & _).
  apply getitem_last. lia.
Qed.

Lemma get_finger_info_confined_witness :
  getitem [x40; x00; x07] (-1) = Ok (last_of [x40; x00; x07]).
Proof.
  destruct (get_finger_info_confined 1 3) as [_ H].
  apply (H (mkWorld true [[x40; x00; x07]] [])). reflexivity.
Defined.

Lemma marker_overflow (id : Z) : 250 < id <= 255 -> 255 < Z.lor 0xf0 (id + 5).
Proof.
  intros H. revert id H.
  assert (HF : Forall (fun id => 255 < Z.lor 0xf0 (id + 5)) (seqZ 251 5)).
  { apply (bool_decide_unpack _). vm_compute. exact I. }
  intros id H. apply (Forall_seqZ_range _ 251 5 HF). lia.
Qed.

Lemma pack_B_bad v : 255 < v -> pack_B v = Raise StructError.
Proof.
  intros H. unfold pack_B. destruct (Z.ltb_spec v 0); [reflexivity|].
  destruct (Byte.of_N (Z.to_N v)) as [b|] eqn:E; [|reflexivity].
  apply Byte.to_of_N in E. pose proof (Byte.to_N_bounded b). lia.
Qed.

Lemma marked_payload_bad id data :
  250 < id <= 255 -> marked_payload id data = Raise StructError.
Proof.
  intros H. unfold marked_payload. cbn [struct_pack].
  rewrite pack_B_bad by (apply marker_overflow; exact H). reflexivity.
Qed.



Lemma frame_of_intro (cs : list Command) (c : Command) payload timeout :
  In c cs -> frame_of cs (ep_out c, c_command c ++ payload, timeout).
Proof. intros H. exists c, payload, timeout. split; [exact H|reflexivity]. Qed.

Lemma enroll_precheck_confined (fuel : nat) :
  confined transport_or_index (frame_of enroll_cmds) (fun _ => True)
    (enroll_precheck_loop fuel).
Proof.
  induction fuel as [|fuel IH]; [apply confined_out_of_fuel|].
  rewrite enroll_precheck_loop_eq.
  apply (confined_bind (fun _ => True)); [apply confined_print; exact I|].
  intros _ _. apply (confined_bind (fun _ => True)).
  { apply (confined_command "verify" verify_cmd);
      [reflexivity| |left; reflexivity].
    apply frame_of_intro. cbn. tauto. }
  intros resp _.
  read_status resp ltac:(right).
  intros status _. cbv zeta.
  destruct (negb (truthy (get_error status))).
  - apply (confined_bind (fun _ => True)); [apply confined_print; exact I|].
    intros _ _. exact IH.
  - destruct (negb (status =? 253)).
    + apply (confined_bind (fun _ => True)); [apply confined_print; exact I|].
      intros _ _. exact IH.
    + apply confined_print. exact I.
Qed.

Lemma enroll_sampling_confined (fuel : nat) (fid done : Z) :
  0 <= fid <= 255 -> 0 <= done ->
  confined transport_or_index (frame_of enroll_cmds) (fun _ => True)
    (enroll_sampling_loop fuel fid 8 done).
Proof.
  intros Hf. revert done.
  induction fuel as [|fuel IH]; intros done Hd; [apply confined_out_of_fuel|].
  rewrite enroll_sampling_loop_eq.
  destruct (Z.ltb_spec done 8); [|apply confined_ret; exact I].
  apply (confined_bind (fun _ => True)); [apply confined_print; exact I|].
  intros _ _. rewrite struct_pack_sample by lia.
  apply (confined_bind (fun _ => True)); [apply confined_lift; exact I|].
  intros payload _. apply (confined_bind (fun _ => True)).
  { apply (confined_command "enroll" enroll_cmd);
      [reflexivity| |left; reflexivity].
    apply frame_of_intro. cbn. tauto. }
  intros resp _.
  read_status resp ltac:(right).
  intros status _. cbv zeta.
  destruct (negb (status =? 0)).
  - apply (confined_bind (fun _ => True)); [apply confined_print; exact I|].
    intros _ _. destruct (status =? 221); [apply confined_ret; exact I|].
    apply IH. exact Hd.
  - apply IH. lia.
Qed.

(** X10.  From any world, [enroll] raises only a USB error or [IndexError]
    ([struct.pack] cannot fail: the finger id is at most 15 and the attempt
    index below 8); every frame it writes goes to endpoint 1 and is one of
    [enrolled_num], [verify], [enroll], [after_enroll], [commit], never a
    [delete] or a [finger_info]. *)
Theorem enroll_confined (fuel : nat) (user_data : bytes) :
  confined transport_or_index (frame_of enroll_cmds) (fun _ => True)
    (enroll fuel user_data) /\
  (forall wr, frame_of enroll_cmds wr ->
     fst (fst wr) = 1 /\
     take 3 (snd (fst wr)) <> c_command delete_cmd /\
     take 3 (snd (fst wr)) <> c_command finger_info_cmd).
Proof.
  split.
  - unfold enroll.
    apply (confined_bind (fun _ => True)).
    { apply (confined_command "enrolled_num" enrolled_num_cmd);
        [reflexivity| |left; reflexivity].
      apply frame_of_intro. cbn. tauto. }
    intros resp _.
    read_status resp ltac:(right).
    intros status [Hrange _]. cbv zeta.
    destruct (truthy (get_error status)) eqn:T;
      [apply confined_print; exact I|].
    assert (Hsmall : status <= 15).
    { apply clean_status_small; [|exact Hrange].
      destruct (get_error status) eqn:G; [|reflexivity].
      assert (truthy (get_error status) = true) as T'.
      { apply truthy_get_error. rewrite G. discriminate. }
      rewrite G in T'. congruence. }
    apply (confined_bind (fun _ => True)); [apply confined_print; exact I|].
    intros _ _. apply (confined_bind (fun _ => True));
      [apply enroll_precheck_confined|].
    intros _ _. apply (confined_bind (fun _ => True));
      [apply enroll_sampling_confined; lia|].
    intros [] _; [|apply confined_ret; exact I].
    apply (confined_bind (fun _ => True)).
    { apply (confined_command "after_enroll" after_enroll_cmd);
        [reflexivity| |left; reflexivity].
      apply frame_of_intro. cbn. tauto. }
    intros resp' _.
    apply (confined_bind (fun _ => True)); [apply confined_print; exact I|].
    intros _ _.
    apply (confined_bind (fun _ => True)); [apply confined_print; exact I|].
    intros _ _. rewrite marked_payload_ok by lia.
    apply (confined_bind (fun _ => True)); [apply confined_lift; exact I|].
    intros payload _. apply (confined_bind (fun _ => True)).
    { apply (confined_command "commit" commit_cmd);
        [reflexivity| |left; reflexivity].
      apply frame_of_intro. cbn. tauto. }
    intros resp'' _.
    read_status resp'' ltac:(right).
    intros status' _. destruct (status' =? 0); apply confined_print; exact I.
  - intros wr (c & payload & timeout & Hin & ->). cbn [fst snd].
    cbn in Hin.
    destruct Hin as [<-|[<-|[<-|[<-|[<-|[]]]]]]; cbn;
      repeat split; discriminate.
Qed.

(** X11.  An id below 0 or above 255 makes [get_finger_info] and
    [delete_by_id] raise [OverflowError] before anything is written or
    read. *)
Theorem bad_finger_id_no_io (finger_id : Z) (fuel : nat) (w : world) :
  ~ 0 <= finger_id <= 255 ->
  get_finger_info (S fuel) finger_id w = (Raise OverflowError, w) /\
  delete_by_id (S fuel) finger_id w = (Raise OverflowError, w).
Proof.
  intros H.
  assert (E : get_finger_info (S fuel) finger_id w = (Raise OverflowError, w)).
  { rewrite get_finger_info_eq. run_lift. rewrite to_bytes1_bad by exact H.
    reflexivity. }
  split; [exact E|].
  rewrite delete_by_id_eq. unfold bind at 1. rewrite E. reflexivity.
Qed.

Lemma bad_finger_id_no_io_witness :
  get_finger_info 1 256 (mkWorld true [[x40; x00; x00]] []) =
  (Raise OverflowError, mkWorld true [[x40; x00; x00]] []).
Proof. apply (bad_finger_id_no_io 256 O). lia. Defined.

(** X12.  [delete_by_id] on a slot whose record is returned (whatever its
    last byte, 0xFF included) sends [delete] with the marker and [rec[2:]];
    a non-zero status of the delete is reported and nothing more is sent, a
    zero status is followed by one more [finger_info] whose record is
    dumped. *)
Theorem delete_by_id_run
  (fpid : Z) (rec d : bytes) (rest : list bytes) (att : bool)
  (tr : list event) (fuel : nat) :
  0 <= fpid <= 250 ->
  valid_record rec ->
  2 <= len d ->
  (status_of d <> 0 ->
   delete_by_id (S fuel) fpid (mkWorld att (rec :: d :: rest) tr) =
   (Ok tt, mkWorld att rest (tr ++ slot_trace fpid (SlotRefused rec d)))) /\
  (forall rec2 rest',
     status_of d = 0 -> rest = rec2 :: rest' -> valid_record rec2 ->
     delete_by_id (S fuel) fpid (mkWorld att (rec :: d :: rest) tr) =
     (Ok tt,
      mkWorld att rest' (tr ++ slot_trace fpid (SlotDeleted rec d rec2)))) /\
  writes (slot_trace fpid (SlotRefused rec d)) =
    [info_write fpid; delete_write fpid rec] /\
  (forall rec2, writes (slot_trace fpid (SlotDeleted rec d rec2)) =
     [info_write fpid; delete_write fpid rec; info_write fpid]).
Proof.
  intros Hid [Hlen Hst] Hd.
  assert (Hhead : forall rest0,
    delete_by_id (S fuel) fpid (mkWorld att (rec :: d :: rest0) tr) =
    delete (S fuel) fpid (delete_payload fpid rec)
      (mkWorld att (d :: rest0) (tr ++ info_trace fpid rec))).
  { intros rest0. rewrite delete_by_id_eq. unfold bind at 1.
    rewrite get_finger_info_final; [|lia|lia|assumption].
    unfold info_result. destruct (Z.eqb_spec (len rec) 2); [lia|].
    run_lift. rewrite marked_payload_ok by assumption. reflexivity. }
  split; [|split; [|split]].
  - intros Hsd. rewrite Hhead, delete_step by assumption. cbv zeta.
    destruct (Z.eqb_spec (status_of d) 0); [contradiction|].
    unfold print, emit. cbn [attached pending trace slot_trace].
    unfold delete_trace. rewrite <- !app_assoc. reflexivity.
  - intros rec2 rest' Hsd -> [Hlen2 Hst2].
    rewrite Hhead, delete_step by assumption. cbv zeta.
    rewrite Hsd. cbn [Z.eqb]. run_print.
    unfold bind at 1. rewrite get_finger_info_final; [|lia|lia|assumption].
    unfold info_result. destruct (Z.eqb_spec (len rec2) 2); [lia|].
    unfold hexdump, emit. cbn [attached pending trace slot_trace].
    unfold delete_trace. rewrite <- !app_assoc. reflexivity.
  - apply (writes_slot_trace fpid (SlotRefused rec d)).
  - intros rec2. apply (writes_slot_trace fpid (SlotDeleted rec d rec2)).
Qed.

Lemma delete_by_id_run_witness :
  let rec := [x40; x00; x07; xff] in
  fst (delete_by_id 1 2 (mkWorld true [rec; [x40; x00]; rec] [])) = Ok tt /\
  writes (trace (snd (delete_by_id 1 2
                        (mkWorld true [rec; [x40; x00]; rec] [])))) =
    [info_write 2; delete_write 2 rec; info_write 2].
Proof.
  intros rec.
  destruct (delete_by_id_run 2 rec [x40; x00] [rec] true [] O)
    as (_ & Hok & _ & W).
  - lia.
  - unfold valid_record, len; simpl; split; [lia|discriminate].
  - unfold len; simpl; lia.
  - specialize (Hok rec [] eq_refl eq_refl).
    assert (V : valid_record rec)
      by (unfold valid_record, len; simpl; split; [lia|discriminate]).
    specialize (Hok V). split.
    + exact (f_equal fst Hok).
    + exact (eq_trans (f_equal (fun p => writes (trace (snd p))) Hok) (W rec)).
Defined.

(** X13.  For an id from 251 to 255, [delete_by_id] reads the record and then
    fails in [struct.pack], since the marker does not fit a byte:
    [finger_info] is the only frame written. *)
Theorem delete_by_id_marker_overflow
  (fpid : Z) (rec : bytes) (rest : list bytes) (att : bool)
  (tr : list event) (fuel : nat) :
  250 < fpid <= 255 ->
  valid_record rec ->
  delete_by_id (S fuel) fpid (mkWorld att (rec :: rest) tr) =
    (Raise StructError, mkWorld att rest (tr ++ info_trace fpid rec)) /\
  writes (info_trace fpid rec) = [info_write fpid].
Proof.
  intros Hid [Hlen Hst]. split; [|apply writes_info_trace].
  rewrite delete_by_id_eq. unfold bind at 1.
  rewrite get_finger_info_final; [|lia|lia|assumption].
  unfold info_result. destruct (Z.eqb_spec (len rec) 2); [lia|].
  run_lift. rewrite marked_payload_bad by assumption. reflexivity.
Qed.

Lemma delete_by_id_marker_overflow_witness :
  fst (delete_by_id 1 251 (mkWorld true [[x40; x00; x07]; [x40; x00]] [])) =
  Raise StructError /\
  pending (snd (delete_by_id 1 251
                  (mkWorld true [[x40; x00; x07]; [x40; x00]] []))) =
  [[x40; x00]].
Proof.
  destruct (delete_by_id_marker_overflow 251 [x40; x00; x07] [[x40; x00]]
              true [] O) as [E _].
  - lia.
  - unfold valid_record, len; simpl; split; [lia|discriminate].
  - split; [exact (f_equal fst E)|exact (f_equal (fun p => pending (snd p)) E)].
Defined.

(** X14.  When the count query of [enroll] is answered with a status that has
    an error meaning, [enroll] reports it and returns; [enrolled_num] is the
    only frame written. *)
Theorem enroll_count_query_fails
  (user_data : bytes) (num : bytes) (rest : list bytes) (att : bool)
  (tr : list event) (fuel : nat) :
  2 <= len num ->
  get_error (status_of num) <> None ->
  enroll fuel user_data (mkWorld att (num :: rest) tr) =
    (Ok tt,
     mkWorld att rest
       (tr ++ command_trace enrolled_num_cmd [] 2000 num ++
        [Print ("Failed to retrieve currently enrolled fingers: "
                +:+ str_opt (get_error (status_of num)))])) /\
  writes (command_trace enrolled_num_cmd [] 2000 num ++
          [Print ("Failed to retrieve currently enrolled fingers: "
                  +:+ str_opt (get_error (status_of num)))]) =
    [(1, [x40; xff; x04], 2000)].
Proof.
  intros Hlen Herr. split.
  - unfold enroll. run_command lookup_enrolled_num.
    run_lift. rewrite (getitem_status num Hlen). cbv zeta.
    apply truthy_get_error in Herr. rewrite Herr.
    unfold print, emit. cbn [attached pending trace].
    rewrite <- app_assoc. reflexivity.
  - rewrite writes_app, writes_command_trace. reflexivity.
Qed.

Lemma enroll_count_query_fails_witness :
  enroll 0 [x61] (mkWorld true [[x40; xfb]; [x40; xfd]] []) =
  (Ok tt,
   mkWorld true [[x40; xfd]]
     ([] ++ command_trace enrolled_num_cmd [] 2000 [x40; xfb] ++
      [Print ("Failed to retrieve currently enrolled fingers: "
              +:+ str_opt (get_error (status_of [x40; xfb])))])).
Proof.
  apply (enroll_count_query_fails [x61] [x40; xfb] [[x40; xfd]] true [] O).
  - unfold len; simpl; lia.
  - discriminate.
Defined.

Lemma precheck_step fuel r rest att tr :
  2 <= len r ->
  enroll_precheck_loop (S fuel) (mkWorld att (r :: rest) tr) =
  let w1 := mkWorld att rest (tr ++ precheck_trace r) in
  if negb (truthy (get_error (status_of r))) then enroll_precheck_loop fuel w1
  else if negb (status_of r =? 0xfd) then enroll_precheck_loop fuel w1
  else (Ok tt, w1).
Proof.
  intros Hr. rewrite enroll_precheck_loop_eq. unfold precheck_trace.
  run_print. run_command lookup_verify.
  run_lift. rewrite (getitem_status r Hr). cbv zeta.
  destruct (negb (truthy (get_error (status_of r)))).
  - run_print. rewrite <- !app_assoc. reflexivity.
  - destruct (negb (status_of r =? 253)).
    + run_print. rewrite <- !app_assoc. reflexivity.
    + unfold print, emit. cbn [attached pending trace].
      rewrite <- !app_assoc. reflexivity.
Qed.

Lemma writes_precheck_trace r : writes (precheck_trace r) = [verify_write].
Proof.
  unfold precheck_trace. rewrite !writes_app, writes_command_trace. reflexivity.
Qed.

(** X15.  The first loop of [enroll] asks [verify] again on every answer
    whose status is not 0xFD, be it a recognised finger or an error, and
    proceeds on the first answer with status 0xFD; it writes one [verify]
    frame per answer. *)
Theorem enroll_precheck_run
  (waits : list bytes) (pre : bytes) (rest : list bytes) (att : bool)
  (tr : list event) (fuel : nat) :
  Forall (fun r => 2 <= len r /\ status_of r <> 0xfd) waits ->
  2 <= len pre ->
  status_of pre = 0xfd ->
  (length waits < fuel)%nat ->
  enroll_precheck_loop fuel (mkWorld att (waits ++ pre :: rest) tr) =
    (Ok tt,
     mkWorld att rest (tr ++ flat_map precheck_trace (waits ++ [pre]))) /\
  writes (flat_map precheck_trace (waits ++ [pre])) =
    replicate (S (length waits)) verify_write.
Proof.
  intros Hw Hpre Hfd. revert tr fuel.
  induction Hw as [|r waits [Hlen Hne] Hw IH]; intros tr fuel Hfuel.
  - destruct fuel as [|fuel]; [cbn in Hfuel; lia|].
    cbn [app]. rewrite precheck_step by assumption. cbv zeta.
    rewrite Hfd.
    replace (truthy (get_error 253)) with true by (vm_compute; reflexivity).
    cbn [negb Z.eqb Pos.eqb flat_map length replicate].
    rewrite app_nil_r, writes_precheck_trace. split; reflexivity.
  - destruct fuel as [|fuel]; [cbn in Hfuel; lia|].
    cbn [app]. rewrite precheck_step by assumption. cbv zeta.
    destruct (IH (tr ++ precheck_trace r) fuel) as [E W];
      [cbn in Hfuel; lia|].
    cbn [flat_map length]. rewrite <- app_assoc in E.
    split.
    + destruct (negb (truthy (get_error (status_of r)))); [exact E|].
      destruct (Z.eqb_spec (status_of r) 253); [contradiction|exact E].
    + rewrite writes_app, writes_precheck_trace, W. reflexivity.
Qed.

Lemma enroll_precheck_run_witness :
  fst (enroll_precheck_loop 3
         (mkWorld true [[x40; x02]; [x40; xfb]; [x40; xfd]] [])) = Ok tt /\
  writes (flat_map precheck_trace [[x40; x02]; [x40; xfb]; [x40; xfd]]) =
    [verify_write; verify_write; verify_write].
Proof.
  destruct (enroll_precheck_run [[x40; x02]; [x40; xfb]] [x40; xfd] [] true [] 3)
    as [E W].
  - repeat constructor; try (unfold len; simpl; lia); discriminate.
  - unfold len; simpl; lia.
  - reflexivity.
  - simpl; lia.
  - split; [exact (f_equal fst E)|exact W].
Defined.

Lemma writes_enroll_head_trace num pre :
  writes (enroll_head_trace num pre) = [(1, [x40; xff; x04], 2000); verify_write].
Proof.
  unfold enroll_head_trace. rewrite !writes_app, !writes_command_trace.
  reflexivity.
Qed.

Lemma writes_enroll_tail_trace fid ud ae cm :
  writes (enroll_tail_trace fid ud ae cm) =
  [(1, [x40; xff; x10], 2000);
   (1, [x40; xff; x11]
       ++ ljust (byte_of (Z.lor 0xf0 (fid + 5)) :: ud) 69 x00, 2000)].
Proof.
  unfold enroll_tail_trace. rewrite !writes_app, !writes_command_trace.
  reflexivity.
Qed.

(** X16.  A whole enrollment: a count without error meaning, a finger that is
    not enrolled, answers that bring the count of samples to eight, then
    [after_enroll] and [commit].  [enroll] returns, and its writes are
    [enrolled_num], [verify], the [enroll] frames, [after_enroll], and
    [commit] with the marker, the user data and the padding. *)
Theorem enroll_complete_run
  (user_data num pre : bytes) (rs : list bytes) (r ae cm : bytes)
  (rest : list bytes) (att : bool) (tr : list event) (fuel : nat) :
  2 <= len num ->
  get_error (status_of num) = None ->
  2 <= len pre ->
  status_of pre = 0xfd ->
  Forall (fun x => 2 <= len x /\ status_of x <> 0xdd) rs ->
  successes rs = 7 ->
  2 <= len r ->
  status_of r = 0 ->
  2 <= len cm ->
  (length rs + 2 <= fuel)%nat ->
  let fid := status_of num in
  let tr' := enroll_head_trace num pre ++ sampling_trace fid 0 (rs ++ [r])
             ++ enroll_tail_trace fid user_data ae cm in
  enroll fuel user_data
    (mkWorld att (num :: pre :: rs ++ r :: ae :: cm :: rest) tr) =
    (Ok tt, mkWorld att rest (tr ++ tr')) /\
  writes tr' =
    [(1, [x40; xff; x04], 2000); verify_write]
    ++ sampling_writes fid 0 (rs ++ [r])
    ++ [(1, [x40; xff; x10], 2000);
        (1, [x40; xff; x11]
            ++ ljust (byte_of (Z.lor 0xf0 (fid + 5)) :: user_data) 69 x00,
         2000)].
Proof.
  intros Hnum Hclean Hpre Hfd Hrs H7 Hr Hr0 Hcm Hfuel fid tr'.
  pose proof (status_of_range num) as Hrange.
  pose proof (clean_status_small _ Hclean Hrange) as Hsmall.
  split.
  - destruct fuel as [|fuel]; [lia|].
    rewrite (enroll_head _ _ _ _ _ _ _ Hnum Hclean Hpre Hfd).
    unfold bind at 1.
    rewrite (sampling_run fid 0 rs r (ae :: cm :: rest) att _ (S fuel));
      [|lia|lia|assumption|lia|assumption|assumption].
    cbv zeta. rewrite Hr0. cbn [Z.eqb].
    replace (S fuel - length rs - 1)%nat with (S (fuel - length rs - 1)) by lia.
    rewrite enroll_sampling_loop_eq.
    destruct (Z.ltb_spec (0 + successes rs + 1) 8); [lia|].
    unfold ret at 1.
    run_command lookup_after_enroll. run_print. run_print.
    run_lift. fold fid. rewrite marked_payload_ok by lia.
    run_command lookup_commit.
    run_lift. rewrite (getitem_status cm Hcm).
    unfold tr', enroll_tail_trace.
    destruct (status_of cm =? 0); unfold print, emit;
      cbn [attached pending trace]; rewrite <- !app_assoc; reflexivity.
  - unfold tr'.
    rewrite !writes_app, writes_enroll_head_trace, writes_sampling_trace,
      writes_enroll_tail_trace. reflexivity.
Qed.

Lemma enroll_complete_run_witness :
  let ok := [x40; x00] in
  let w := mkWorld true
             ([x40; x02] :: [x40; xfd]
              :: ([ok; [x40; x41]; ok; ok; ok; ok; ok; ok]
                  ++ ok :: [x40; x00; x00] :: [x40; x00] :: [])) [] in
  fst (enroll 10 [x61] w) = Ok tt /\
  last (writes (trace (snd (enroll 10 [x61] w)))) =
    Some (1, [x40; xff; x11] ++ xf7 :: x61 :: replicate 67 x00, 2000).
Proof.
  intros ok w.
  destruct (enroll_complete_run [x61] [x40; x02] [x40; xfd]
              [ok; [x40; x41]; ok; ok; ok; ok; ok; ok] ok
              [x40; x00; x00] [x40; x00] [] true [] 10) as [E W].
  - unfold len; simpl; lia.
  - reflexivity.
  - unfold len; simpl; lia.
  - reflexivity.
  - repeat constructor; try (unfold len; simpl; lia); discriminate.
  - reflexivity.
  - unfold len; simpl; lia.
  - reflexivity.
  - unfold len; simpl; lia.
  - simpl; lia.
  - split; [exact (f_equal fst E)|].
    exact (eq_trans
             (eq_trans (f_equal (fun p => last (writes (trace (snd p)))) E)
                (f_equal last W)) eq_refl).
Defined.

(** X17.  Without a device [main] raises [OSError] and touches nothing.  With
    one, an exception of the [try] block is followed by the line Aborting
    and one [abort] frame on endpoint 1 with timeout 0, whose answer is not
    read, and the same exception goes on; a run without exception writes no
    [abort]. *)
Theorem main_failure_handling (fuel : nat) (a : args) (w : world) :
  (attached w = false ->
   main fuel a w = (Raise (OSError "Failed to open USB device"), w)) /\
  (attached w = true ->
   forall e w', main_body fuel a w = (Raise e, w') ->
   main fuel a w =
   (Raise e,
    mkWorld (attached w') (pending w') (trace w' ++ abort_trace))) /\
  (attached w = true ->
   forall w', main_body fuel a w = (Ok tt, w') -> main fuel a w = (Ok tt, w')) /\
  writes abort_trace = [(1, [x40; xff; x02], 0)] /\
  reads abort_trace = [].
Proof.
  split; [|split; [|split; [|split; reflexivity]]].
  - intros H. unfold main. rewrite H. reflexivity.
  - intros H e w' Hb. unfold main. rewrite H, Hb. cbn [negb].
    unfold lookup_command. rewrite lookup_abort.
    unfold bind, print, bulkWrite, emit, ret, raise, abort_trace, abort_cmd.
    cbn [attached pending trace c_command]. rewrite <- app_assoc. reflexivity.
  - intros H w' Hb. unfold main. rewrite H, Hb. reflexivity.
Qed.

Lemma main_failure_handling_witness :
  main 1 ArgVerify (mkWorld false [[x40; x01]] []) =
  (Raise (OSError "Failed to open USB device"), mkWorld false [[x40; x01]] []).
Proof.
  apply (main_failure_handling 1 ArgVerify (mkWorld false [[x40; x01]] [])).
  reflexivity.
Defined.

Lemma listing_body_ok fuel id rec rest att tr :
  0 <= id <= 255 -> valid_record rec ->
  listing_body (S fuel) id (mkWorld att (rec :: rest) tr) =
  (Ok tt, mkWorld att rest (tr ++ listing_trace id rec)).
Proof.
  intros Hid [Hlen Hst]. unfold listing_body.
  unfold bind at 1. rewrite get_finger_info_final; [|lia|lia|assumption].
  unfold info_result. destruct (Z.eqb_spec (len rec) 2); [lia|].
  run_print. unfold hexdump, emit. cbn [attached pending trace].
  unfold listing_trace. rewrite <- !app_assoc. reflexivity.
Qed.

Lemma listing_body_bad fuel id bad rest att tr :
  0 <= id <= 255 -> len bad = 2 -> status_of bad <> 0xff ->
  listing_body (S fuel) id (mkWorld att (bad :: rest) tr) =
  (Raise (IOError ("Error: " +:+ str_opt (get_error (status_of bad)))),
   mkWorld att rest (tr ++ info_trace id bad)).
Proof.
  intros Hid Hlen Hs. unfold listing_body.
  unfold bind at 1. rewrite get_finger_info_final; [|lia|lia|assumption].
  unfold info_result. rewrite Hlen. reflexivity.
Qed.

Lemma listing_sweep fuel (recs : list bytes) (id : Z) (more : list Z)
  rest att tr :
  0 <= id -> id + len recs <= 256 ->
  Forall valid_record recs ->
  for_ (seqZ id (len recs) ++ more) (listing_body (S fuel))
    (mkWorld att (recs ++ rest) tr) =
  for_ more (listing_body (S fuel))
    (mkWorld att rest (tr ++ listing_sweep_trace id recs)).
Proof.
  intros Hid Hmax Hok. revert id tr Hid Hmax.
  induction Hok as [|rec recs Hrec Hok IH]; intros id tr Hid Hmax.
  - cbn. rewrite app_nil_r. reflexivity.
  - unfold len in *. cbn [length] in *.
    rewrite seqZ_cons by lia. cbn [app for_ listing_sweep_trace].
    unfold bind at 1.
    rewrite listing_body_ok by (assumption || lia).
    replace (Z.pred (Z.of_nat (S (length recs))))
      with (Z.of_nat (length recs)) by lia.
    replace (Z.succ id) with (id + 1) by lia.
    rewrite IH by lia. rewrite <- app_assoc. reflexivity.
Qed.

Lemma writes_listing_sweep_trace id recs :
  writes (listing_sweep_trace id recs) =
  info_write <$> seqZ id (len recs).
Proof.
  revert id. induction recs as [|rec recs IH]; intros id; [reflexivity|].
  cbn [listing_sweep_trace]. unfold listing_trace.
  rewrite !writes_app, writes_info_trace, IH.
  unfold len. cbn [length]. rewrite (seqZ_cons id) by lia.
  cbn [fmap list_fmap app]. unfold writes at 1. cbn [omap list_omap write_of app].
  replace (Z.pred (Z.of_nat (S (length recs))))
    with (Z.of_nat (length recs)) by lia.
  replace (Z.succ id) with (id + 1) by lia. reflexivity.
Qed.

(** X18.  The [finger_info_all] branch asks for the slots 0 to 9 in order and
    dumps each record; an answer of exactly 2 bytes for a slot raises
    [IOError] and the slots after it are not asked for. *)
Theorem finger_info_all_sweep
  (recs : list bytes) (rest : list bytes) (att : bool) (tr : list event)
  (fuel : nat) :
  Forall valid_record recs ->
  (length recs = 10%nat ->
   main_body (S fuel) ArgFingerInfoAll (mkWorld att (recs ++ rest) tr) =
   (Ok tt, mkWorld att rest (tr ++ listing_sweep_trace 0 recs))) /\
  (forall bad : bytes,
     (length recs < 10)%nat -> len bad = 2 -> status_of bad <> 0xff ->
     main_body (S fuel) ArgFingerInfoAll
       (mkWorld att (recs ++ bad :: rest) tr) =
     (Raise (IOError ("Error: " +:+ str_opt (get_error (status_of bad)))),
      mkWorld att rest
        (tr ++ listing_sweep_trace 0 recs ++ info_trace (len recs) bad))) /\
  writes (listing_sweep_trace 0 recs) = info_write <$> seqZ 0 (len recs).
Proof.
  intros Hok. split; [|split].
  - intros Hlen. cbn [main_body]. fold (listing_body (S fuel)). unfold range.
    replace (10 - 0) with (len recs) by (unfold len; lia).
    rewrite <- (app_nil_r (seqZ 0 (len recs))).
    rewrite listing_sweep by (assumption || unfold len; lia).
    reflexivity.
  - intros bad Hlen Hbad Hs. cbn [main_body]. fold (listing_body (S fuel)).
    unfold range.
    replace (10 - 0) with (len recs + (10 - len recs)) by lia.
    rewrite seqZ_app by (unfold len; lia).
    rewrite listing_sweep by (assumption || unfold len; lia).
    rewrite seqZ_cons by (unfold len; lia). cbn [for_].
    unfold bind at 1.
    rewrite listing_body_bad by (assumption || unfold len; lia).
    rewrite <- app_assoc. reflexivity.
  - apply writes_listing_sweep_trace.
Qed.

Lemma finger_info_all_sweep_witness :
  let rec := [x40; x00; x07] in
  fst (main_body 1 ArgFingerInfoAll
         (mkWorld true [rec; rec; [x40; xfd]; rec] [])) =
    Raise (IOError "Error: Finger not enrolled") /\
  writes (listing_sweep_trace 0 [rec; rec]) = [info_write 0; info_write 1].
Proof.
  intros rec.
  destruct (finger_info_all_sweep [rec; rec] [rec] true [] O)
    as (_ & Hbad & W).
  - unfold valid_record, len. repeat constructor; simpl; first [lia | discriminate].
  - split; [|exact W].
    exact (f_equal fst (Hbad [x40; xfd] ltac:(simpl; lia) eq_refl
                          ltac:(discriminate))).
Defined.

Lemma bytes_of_ints_encode (b : bytes) :
  bytes_of_ints (int_of_byte <$> b) = Ok b.
Proof.
  induction b as [|x b IH]; [reflexivity|].
  cbn [fmap list_fmap bytes_of_ints].
  pose proof (int_of_byte_range x) as Hx.
  destruct (Z.ltb_spec (int_of_byte x) 0); [lia|].
  destruct (Z.ltb_spec 255 (int_of_byte x)); [lia|]. cbn [orb].
  unfold int_of_byte at 1. rewrite N2Z.id.
  rewrite Byte.of_to_N. fold (list_fmap _ _ int_of_byte b).
  change (list_fmap byte Z int_of_byte b) with (int_of_byte <$> b).
  rewrite IH. reflexivity.
Qed.

Lemma bytes_of_ints_decode (l : list Z) (b : bytes) :
  bytes_of_ints l = Ok b -> int_of_byte <$> b = l.
Proof.
  revert b. induction l as [|v l IH]; intros b H; cbn [bytes_of_ints] in H.
  - injection H as <-. reflexivity.
  - destruct ((v <? 0) || (255 <? v)) eqn:R; [discriminate|].
    destruct (Byte.of_N (Z.to_N v)) as [x|] eqn:E; [|discriminate].
    destruct (bytes_of_ints l) as [bs| |]; cbn [obind] in H; try discriminate.
    injection H as <-. cbn [fmap list_fmap]. f_equal.
    + apply Byte.to_of_N in E. unfold int_of_byte. rewrite E.
      apply orb_false_iff in R as [R _]. apply Z.ltb_ge in R. lia.
    + apply IH. reflexivity.
Qed.

Lemma bytes_of_ints_invalid (l : list Z) :
  Exists (fun v => v < 0 \/ 255 < v) l -> bytes_of_ints l = Raise ValueError.
Proof.
  induction l as [|v l IH]; intros H; [inversion H|].
  cbn [bytes_of_ints].
  destruct ((v <? 0) || (255 <? v)) eqn:R; [reflexivity|].
  apply orb_false_iff in R as [R1 R2].
  apply Z.ltb_ge in R1. apply Z.ltb_ge in R2.
  inversion H as [? ? Hv|? ? Hl]; subst; [lia|].
  destruct (Byte.of_N (Z.to_N v)); [|reflexivity].
  rewrite (IH Hl). reflexivity.
Qed.

(** X19.  The [raw] branch: values from 0 to 255 become the bytes with these
    values (and back), are written to endpoint 1, and one answer of up to
    1000 bytes is read from the endpoint given; a value out of that range
    raises [ValueError] before anything is written. *)
Theorem raw_command_run (ep : Z) (hexs : list Z) (fuel : nat) :
  (forall payload r rest att tr,
     bytes_of_ints hexs = Ok payload ->
     int_of_byte <$> payload = hexs /\
     main_body fuel (ArgRaw ep hexs) (mkWorld att (r :: rest) tr) =
     (Ok tt,
      mkWorld att rest
        (tr ++ [Print ("Sending [" +:+ str_int (len payload) +:+ "]:");
                Hexdump payload; Print "";
                BulkWrite 1 payload 5000; BulkRead ep 1000 5000 r;
                Print ("Received [" +:+ str_int (len r) +:+ "]:");
                Hexdump r]))) /\
  (forall w,
     Exists (fun v => v < 0 \/ 255 < v) hexs ->
     main_body fuel (ArgRaw ep hexs) w = (Raise ValueError, w)) /\
  (forall b : bytes, bytes_of_ints (int_of_byte <$> b) = Ok b).
Proof.
  split; [|split].
  - intros payload r rest att tr H. split; [apply bytes_of_ints_decode; exact H|].
    cbn [main_body]. run_lift. rewrite H.
    unfold bind, print, hexdump, bulkWrite, bulkRead, emit;
      cbn [attached pending trace]. rewrite <- !app_assoc. reflexivity.
  - intros w H. cbn [main_body]. run_lift.
    rewrite bytes_of_ints_invalid by exact H. reflexivity.
  - apply bytes_of_ints_encode.
Qed.

Lemma raw_command_run_witness :
  main_body 0 (ArgRaw 3 [64; 256]) (mkWorld true [[x40]] []) =
  (Raise ValueError, mkWorld true [[x40]] []).
Proof.
  destruct (raw_command_run 3 [64; 256] O) as (_ & H & _).
  apply H. right. left. lia.
Defined.

Lemma pair_ind (P : bytes -> Prop) :
  P [] -> (forall x, P [x]) -> (forall x y l, P l -> P (x :: y :: l)) ->
  forall l, P l.
Proof.
  intros H0 H1 H2.
  assert (H : forall l, P l /\ forall x, P (x :: l)).
  { induction l as [|y l [IH1 IH2]]; split; auto. }
  intros l. apply H.
Qed.

Lemma samples16_length (data : bytes) :
  (2 * length (samples16 data) <= length data)%nat /\
  (length data <= 2 * length (samples16 data) + 1)%nat.
Proof.
  induction data as [|x|x y l IH] using pair_ind; cbn [samples16 length]; lia.
Qed.

Lemma samples16_range (data : bytes) :
  Forall (fun v => 0 <= v <= 65535) (samples16 data).
Proof.
  induction data as [|x|x y l IH] using pair_ind; cbn [samples16];
    [constructor..|].
  constructor; [|exact IH].
  pose proof (int_of_byte_range x). pose proof (int_of_byte_range y). lia.
Qed.

Lemma frombuffer_ok width height data :
  0 < width -> 0 < height -> 2 * width * height <= len data ->
  frombuffer width height data =
    Ok (mkImage width height
          (take (Z.to_nat (width * height)) (samples16 data))) /\
  well_formed
    (mkImage width height (take (Z.to_nat (width * height)) (samples16 data)))
    width height.
Proof.
  intros Hw Hh Hlen. unfold frombuffer.
  destruct (Z.ltb_spec (len data) (2 * width * height)); [lia|].
  split; [reflexivity|]. unfold well_formed. cbn [im_width im_height im_data].
  repeat split; try assumption.
  unfold len in *. rewrite length_take.
  pose proof (samples16_length data). nia.
Qed.

Lemma getitem_at (b : bytes) (i : nat) :
  (i < length b)%nat -> getitem b (Z.of_nat i) = Ok (byte_at b i).
Proof.
  intros H. unfold getitem, byte_at.
  destruct (Z.leb_spec 0 (Z.of_nat i)); [|lia].
  destruct (Z.ltb_spec (Z.of_nat i) (len b)); [|unfold len in *; lia].
  cbn [andb]. rewrite Nat2Z.id.
  destruct (b !! i) eqn:E; [reflexivity|].
  apply lookup_ge_None in E. lia.
Qed.

Lemma byte_at_range b i : 0 <= byte_at b i <= 255.
Proof.
  unfold byte_at. destruct (b !! i); cbn; [apply int_of_byte_range|lia].
Qed.

Lemma lookup_sensor_size : COMMANDS !! "sensor_size" = Some sensor_size_cmd.
Proof. reflexivity. Qed.

(** X20.  The [capture] branch on a sensor of [resp[0] + 1] by [resp[2] + 1]
    pixels asks for two bytes per pixel.  A shorter buffer raises
    [ValueError].  Otherwise, with a minimum below the maximum, it saves an
    image of that size whose pixels are the integer parts of
    [(v - min) * 256 / (max - min)], clipped to 255 by the 8-bit image, over
    the samples in row-major order. *)
Theorem capture_run
  (png : string) (ss buf : bytes) (rest : list bytes) (att : bool)
  (tr : list event) :
  3 <= len ss ->
  let width := byte_at ss 0 + 1 in
  let height := byte_at ss 2 + 1 in
  let samples := take (Z.to_nat (width * height)) (samples16 buf) in
  let mm := foldl minmax_step (65536, 0) samples in
  let tr' := command_trace sensor_size_cmd [] 2000 ss ++
             [BulkWrite 1 [x00; x09] 5000;
              BulkRead 2 (2 * width * height) 5000 buf] in
  (len buf < 2 * width * height ->
   capture png (mkWorld att (ss :: buf :: rest) tr) =
   (Raise ValueError, mkWorld att rest (tr ++ tr'))) /\
  (2 * width * height <= len buf -> fst mm < snd mm ->
   capture png (mkWorld att (ss :: buf :: rest) tr) =
   (Ok tt,
    mkWorld att rest
      (tr ++ tr' ++
       [SavePng png width height
          ((fun v => Z.min 255 ((v - fst mm) * 256 / (snd mm - fst mm)))
             <$> samples)]))).
Proof.
  intros Hss width height samples mm tr'.
  pose proof (byte_at_range ss 0) as H0. pose proof (byte_at_range ss 2) as H2.
  assert (Hhead : forall k : image -> M unit,
    capture png (mkWorld att (ss :: buf :: rest) tr) =
    (let* img := lift (frombuffer width height buf) in
     let* mm := lift (minmax img width height) in
     let '(minv, maxv) := mm in
     let* img_8b := lift (to_8bit img width height minv maxv) in
     emit (SavePng png (im_width img_8b) (im_height img_8b) (im_data img_8b)))
      (mkWorld att rest (tr ++ tr'))).
  { intros _. unfold capture. run_command lookup_sensor_size.
    run_lift.
    rewrite (getitem_at ss 0 ltac:(unfold len in Hss; lia) : getitem ss 0 = _).
    run_lift.
    rewrite (getitem_at ss 2 ltac:(unfold len in Hss; lia) : getitem ss 2 = _).
    unfold bind at 1. unfold bulkWrite at 1, emit. cbn [attached pending trace].
    unfold bind at 1. unfold bulkRead at 1. cbn [attached pending trace].
    unfold tr'. rewrite <- !app_assoc. reflexivity. }
  rewrite (Hhead (fun _ => ret tt)). clear Hhead. split.
  - intros Hshort. run_lift. unfold frombuffer.
    destruct (Z.ltb_spec (len buf) (2 * width * height)); [reflexivity|lia].
  - intros Hlen Hmm.
    destruct (frombuffer_ok width height buf) as [Ef Hwf]; [lia|lia|exact Hlen|].
    run_lift. rewrite Ef.
    run_lift. rewrite (minmax_fold _ width height Hwf). cbn [im_data].
    fold samples. fold mm. destruct mm as [minv maxv] eqn:Emm.
    cbn [fst snd] in *.
    run_lift. rewrite (to_8bit_map _ width height Hwf) by lia.
    cbn [im_data]. fold samples.
    assert (Emap : pixel minv maxv <$> samples =
                   (fun v => Z.min 255 ((v - minv) * 256 / (maxv - minv)))
                     <$> samples).
    { destruct (minmax_step_bounds samples (65536, 0)) as (_ & _ & Hall).
      fold mm in Hall. rewrite Emm in Hall. cbn [fst snd] in Hall.
      apply pixel_map; assumption. }
    rewrite Emap.
    unfold emit. cbn [attached pending trace im_width im_height im_data].
    rewrite <- !app_assoc. reflexivity.
Qed.

Lemma capture_run_witness :
  capture "out.png"
    (mkWorld true
       [[x02; x00; x00; x00]; [x00; x00; xe8; x03; xf4; x01]] []) =
  (Ok tt,
   mkWorld true []
     [BulkWrite 1 [x00; x0c] 2000;
      BulkRead 3 4 2000 [x02; x00; x00; x00];
      BulkWrite 1 [x00; x09] 5000;
      BulkRead 2 6 5000 [x00; x00; xe8; x03; xf4; x01];
      SavePng "out.png" 3 1 [0; 255; 128]]) /\
  fst (capture "out.png"
         (mkWorld true [[x02; x00; x00; x00]; [x00; x00; xe8; x03]] [])) =
    Raise ValueError.
Proof.
  split.
  - destruct (capture_run "out.png" [x02; x00; x00; x00]
                [x00; x00; xe8; x03; xf4; x01] [] true [])
      as [_ Hok]; [unfold len; simpl; lia|].
    exact (Hok ltac:(vm_compute; discriminate)
               ltac:(vm_compute; reflexivity)).
  - destruct (capture_run "out.png" [x02; x00; x00; x00]
                [x00; x00; xe8; x03] [] true [])
      as [Hshort _]; [unfold len; simpl; lia|].
    exact (f_equal fst (Hshort ltac:(vm_compute; reflexivity))).
Defined.

Lemma minmax_step_member (l : list Z) (mm : Z * Z) :
  (fst (foldl minmax_step mm l) = fst mm \/ In (fst (foldl minmax_step mm l)) l)
  /\
  (snd (foldl minmax_step mm l) = snd mm \/ In (snd (foldl minmax_step mm l)) l).
Proof.
  revert mm. induction l as [|v l IH]; intros mm; [cbn; tauto|].
  cbn [foldl]. destruct (IH (minmax_step mm v)) as [Hmin Hmax].
  change (fst (minmax_step mm v)) with (Z.min (fst mm) v) in Hmin.
  change (snd (minmax_step mm v)) with (Z.max v (snd mm)) in Hmax.
  split.
  - destruct Hmin as [E|E]; [|right; right; exact E].
    destruct (Z.min_spec (fst mm) v) as [[_ M]|[_ M]]; rewrite M in E.
    + left. exact E.
    + right. left. symmetry. exact E.
  - destruct Hmax as [E|E]; [|right; right; exact E].
    destruct (Z.max_spec v (snd mm)) as [[_ M]|[_ M]]; rewrite M in E.
    + left. exact E.
    + right. left. symmetry. exact E.
Qed.

(** X21.  On a frame of 16-bit samples the first pair of loops yields the
    smallest and the largest sample: both occur in the frame and bound every
    sample (the start value 65536 is above every sample and never
    survives). *)
Theorem minmax_exact (img : image) (width height : Z) :
  well_formed img width height ->
  Forall (fun v => 0 <= v <= 65535) (im_data img) ->
  exists minv maxv,
    minmax img width height = Ok (minv, maxv) /\
    In minv (im_data img) /\ In maxv (im_data img) /\
    Forall (fun v => minv <= v <= maxv) (im_data img).
Proof.
  intros Hwf Hrange.
  rewrite (minmax_fold img width height Hwf).
  destruct (minmax_step_bounds (im_data img) (65536, 0)) as (_ & _ & Hall).
  destruct (minmax_step_member (im_data img) (65536, 0)) as [Hmin Hmax].
  destruct (foldl minmax_step (65536, 0) (im_data img)) as [minv maxv].
  cbn [fst snd] in *. exists minv, maxv. split; [reflexivity|].
  assert (Hne : im_data img <> []).
  { destruct Hwf as (_ & _ & Hw & Hh & Hlen). intros E. rewrite E in Hlen.
    unfold len in Hlen. cbn in Hlen. nia. }
  destruct (im_data img) as [|v0 data] eqn:Ed; [contradiction|].
  inversion Hall as [|? ? Hv0 Hall']; subst.
  inversion Hrange as [|? ? Rv0 Hrange']; subst.
  split; [|split; [|exact Hall]].
  - destruct Hmin as [E|E]; [lia|exact E].
  - destruct Hmax as [E|E]; [|exact E].
    left. lia.
Qed.

Lemma minmax_exact_witness :
  exists minv maxv,
    minmax (mkImage 3 2 [7; 1000; 500; 3; 100; 999]) 3 2 = Ok (minv, maxv) /\
    In minv [7; 1000; 500; 3; 100; 999] /\ In maxv [7; 1000; 500; 3; 100; 999].
Proof.
  destruct (minmax_exact (mkImage 3 2 [7; 1000; 500; 3; 100; 999]) 3 2)
    as (minv & maxv & E & I1 & I2 & _).
  - unfold well_formed, len. simpl. lia.
  - repeat constructor; lia.
  - exists minv, maxv. auto.
Defined.

(** X22.  With [min < max], the conversion computes 0 for the minimum and 256
    for the maximum, and a sample that is not smaller gets a value that is
    not smaller. *)
Theorem scale_order (minv maxv : Z) :
  minv < maxv ->
  int_truediv ((minv - minv) * 256) (maxv - minv) = Ok 0 /\
  int_truediv ((maxv - minv) * 256) (maxv - minv) = Ok 256 /\
  (forall v1 v2 p1 p2,
     minv <= v1 <= v2 ->
     int_truediv ((v1 - minv) * 256) (maxv - minv) = Ok p1 ->
     int_truediv ((v2 - minv) * 256) (maxv - minv) = Ok p2 ->
     0 <= p1 <= p2).
Proof.
  intros Hlt. rewrite !int_truediv_scale by lia. unfold scale.
  split; [|split].
  - rewrite Z.sub_diag. reflexivity.
  - rewrite Z.mul_comm, Z.quot_mul by lia. reflexivity.
  - intros v1 v2 p1 p2 Hv E1 E2.
    rewrite int_truediv_scale in E1, E2 by lia. unfold scale in E1, E2.
    injection E1 as <-. injection E2 as <-.
    split.
    + apply Z.quot_pos; lia.
    + apply Z.quot_le_mono; [lia|]. nia.
Qed.

Lemma scale_order_witness :
  int_truediv ((1000 - 0) * 256) (1000 - 0) = Ok 256.
Proof. apply (scale_order 0 1000). lia. Defined.
